(** * The image analysis service of caption-ai-generator

    A shallow embedding of [backend/imageAnalysisService.js] (the revision
    that exports [analyzeImageWithAI], [processUploadedImage] and
    [textToImageWithAI]) together with the properties its specification
    states about it.

    Modelling conventions.
    - A JavaScript string is a Rocq [string].  A character below 128 is the
      UTF-16 code unit of that value; characters from 128 on stand for code
      units that are neither white space nor cased, so [trim] and
      [toUpperCase] leave them alone.
    - A response body is a [json] value.  Numbers are integers: the service
      only tests a number for zero or compares it with a length.
    - [undefined] is [None] wherever a property read may yield it.
    - An exception is a value of [completion]; the HTTP calls of a run are
      answered by a [network], the n-th call by its n-th outcome, and every
      call is recorded in a trace of [attempt]s. *)

From Stdlib Require Import String Ascii List Bool Arith ZArith Lia.
From Stdlib Require Import Strings.Byte DecimalString.
Import ListNotations.
Open Scope string_scope.

(** ** String primitives of the JavaScript runtime *)

Module JsString.

(** The white space of [String.prototype.trim] among the code units
    below 128: TAB, LF, VT, FF, CR and SPACE. *)
Definition isWhiteSpace (c : ascii) : bool :=
  let n := nat_of_ascii c in
  ((n =? 9) || (n =? 10) || (n =? 11) || (n =? 12) || (n =? 13)
   || (n =? 32))%nat.

Fixpoint rev (s : string) : string :=
  match s with
  | EmptyString => EmptyString
  | String c r => rev r ++ String c EmptyString
  end.

Fixpoint trimStart (s : string) : string :=
  match s with
  | EmptyString => EmptyString
  | String c r => if isWhiteSpace c then trimStart r else s
  end.

Definition trimEnd (s : string) : string := rev (trimStart (rev s)).

(** [s.trim()] *)
Definition trim (s : string) : string := trimEnd (trimStart s).

(** [s.endsWith(suffix)] *)
Definition endsWith (s suffix : string) : bool :=
  prefix (rev suffix) (rev s).

(** [s.slice(0, -1)] *)
Definition dropLast (s : string) : string :=
  String.substring 0 (String.length s - 1) s.

(** [s.slice(n)] for a non-negative [n] *)
Definition sliceFrom (n : nat) (s : string) : string :=
  String.substring n (String.length s - n) s.

(** [s.substring(0, n)] *)
Definition substringTo (n : nat) (s : string) : string :=
  String.substring 0 n s.

(** [s.charAt(n)]: the empty string when [n] is out of range. *)
Definition charAt (n : nat) (s : string) : string :=
  match String.get n s with
  | Some c => String c EmptyString
  | None => EmptyString
  end.

Definition upperChar (c : ascii) : ascii :=
  let n := nat_of_ascii c in
  if ((97 <=? n) && (n <=? 122))%nat then ascii_of_nat (n - 32) else c.

(** [s.toUpperCase()] *)
Fixpoint toUpperCase (s : string) : string :=
  match s with
  | EmptyString => EmptyString
  | String c r => String (upperChar c) (toUpperCase r)
  end.

(** A string is truthy when it is not empty. *)
Definition truthy (s : string) : bool := negb (String.length s =? 0)%nat.

(** [s.replace(/^(p1|p2|...)/, '')]: the first alternative that matches at
    the start of [s] is removed, once. *)
Fixpoint replacePrefix (alternatives : list string) (s : string) : string :=
  match alternatives with
  | [] => s
  | p :: rest =>
      if prefix p s then sliceFrom (String.length p) s else replacePrefix rest s
  end.

(** [items.join(sep)] on an array of strings *)
Definition join (sep : string) (items : list string) : string :=
  String.concat sep items.

End JsString.

(** ** The text post-processing functions *)

Record AnalysisResult := mkAnalysisResult {
  altText : string;
  caption : string
}.

(** [formatAltText], lines 522-538.  The capitalisation step is the template
    literal [`${altText.charAt(0).toUpperCase()} ${altText.slice(1)}`], whose
    two substitutions are separated by a space. *)
Definition formatAltText (text : string) : string :=
  let altText := JsString.trim text in
  let altText :=
    if JsString.endsWith altText "." then JsString.dropLast altText
    else altText in
  let altText :=
    JsString.toUpperCase (JsString.charAt 0 altText) ++ " "
      ++ JsString.sliceFrom 1 altText in
  if (125 <? String.length altText)%nat
  then JsString.substringTo 122 altText ++ "..."
  else altText.

(** The capitalisation step as the earlier revisions of the service and the
    front end's [capitalizeFirstLetter] write it:
    [altText.charAt(0).toUpperCase() + altText.slice(1)]. *)
Definition capitalizeFirstLetter (sentence : string) : string :=
  JsString.toUpperCase (JsString.charAt 0 sentence)
    ++ JsString.sliceFrom 1 sentence.

Definition boilerplatePrefixes : list string :=
  ["Caption: "; "Description: "; "Image shows: "].

(** [formatCaption], lines 547-564, on string arguments.  [classifications]
    is the string of labels, already joined by the caller. *)
Definition formatCaption (detailedText basicCaption classifications : string)
  : string :=
  if JsString.truthy detailedText
     && (String.length basicCaption <? String.length detailedText)%nat
  then JsString.replacePrefix boilerplatePrefixes detailedText
  else
    if JsString.truthy classifications && (0 <? String.length classifications)%nat
    then basicCaption ++ " The image contains: " ++ classifications ++ "."
    else basicCaption.

(** [getMockAnalysisResults], lines 570-575. *)
Definition getMockAnalysisResults : AnalysisResult :=
  {| altText :=
       "Example image showing content that would normally be analyzed by AI";
     caption :=
       "This is a placeholder caption for demonstration purposes. In production, this would be replaced with AI-generated analysis describing the content, context, and details of the uploaded image." |}.


(** ** JSON values and the JavaScript operations the service applies to them *)

#[local] Set Warnings "-register-all".

Inductive json : Type :=
| JNull
| JBool (b : bool)
| JNum (n : Z)
| JStr (s : string)
| JArr (items : list json)
| JObj (fields : list (string * json)).

Inductive exn : Type :=
| TypeError
| IOError
| RequestFailed.

(** How a statement or call completes: with a value, or by throwing. *)
Inductive completion (A : Type) : Type :=
| Normal (a : A)
| Throw (e : exn).
Arguments Normal {A} a.
Arguments Throw {A} e.

Definition bind {A B} (c : completion A) (k : A -> completion B)
  : completion B :=
  match c with
  | Normal a => k a
  | Throw e => Throw e
  end.

Notation "x <- c ;; k" := (bind c (fun x => k))
  (at level 61, c at next level, right associativity).

(** [try { body } catch (error) { handler }] *)
Definition tryCatch {A} (body : completion A) (handler : exn -> completion A)
  : completion A :=
  match body with
  | Normal a => Normal a
  | Throw e => handler e
  end.

Fixpoint mapM {A B} (f : A -> completion B) (l : list A)
  : completion (list B) :=
  match l with
  | [] => Normal []
  | a :: rest => b <- f a ;; bs <- mapM f rest ;; Normal (b :: bs)
  end.

Module Js.

(** ToBoolean: [null], [false], [0] and the empty string are falsy; arrays
    and objects are truthy. *)
Definition truthy (v : json) : bool :=
  match v with
  | JNull => false
  | JBool b => b
  | JNum n => negb (n =? 0)%Z
  | JStr s => JsString.truthy s
  | JArr _ | JObj _ => true
  end.

(** A value that may be [undefined], kept only when it is truthy. *)
Definition truthyValue (v : option json) : option json :=
  match v with
  | Some t => if truthy t then Some t else None
  | None => None
  end.

Definition isArray (v : json) : bool :=
  match v with JArr _ => true | _ => false end.

(** [typeof v === 'object']: objects, arrays and [null]. *)
Definition typeofObject (v : json) : bool :=
  match v with JNull | JArr _ | JObj _ => true | _ => false end.

(** [typeof v === 'string'] *)
Definition typeofString (v : json) : bool :=
  match v with JStr _ => true | _ => false end.

(** The own property [key] of a parsed object; [fields] lists each key
    once. *)
Fixpoint lookup (key : string) (fields : list (string * json))
  : option json :=
  match fields with
  | [] => None
  | (k, v) :: rest => if (k =? key)%string then Some v else lookup key rest
  end.

(** [v.key] for one of the names [label] and [generated_text] on a value
    that is not [null]: only an object can have such a property. *)
Definition field (v : json) (key : string) : option json :=
  match v with
  | JObj fields => lookup key fields
  | _ => None
  end.

(** [v[0]?.key] on an array [v]: [undefined] when the array is empty or
    its first element is [null]. *)
Definition firstElementField (v : json) (key : string) : option json :=
  match v with
  | JArr (first :: _) => field first key
  | _ => None
  end.

(** ToString.  An object parsed from JSON converts to [[object Object]]
    unless it has an own [toString], which is then not callable and makes
    the conversion throw; an array joins its elements with a comma,
    [null] elements giving the empty string. *)
Fixpoint toString (v : json) : completion string :=
  match v with
  | JNull => Normal "null"
  | JBool true => Normal "true"
  | JBool false => Normal "false"
  | JNum n => Normal (NilZero.string_of_int (Z.to_int n))
  | JStr s => Normal s
  | JArr items =>
      (fix elements (l : list json) : completion string :=
         match l with
         | [] => Normal ""
         | x :: rest =>
             sx <- match x with JNull => Normal "" | _ => toString x end ;;
             match rest with
             | [] => Normal sx
             | _ => sr <- elements rest ;; Normal (sx ++ "," ++ sr)
             end
         end) items
  | JObj fields =>
      match lookup "toString" fields with
      | Some _ => Throw TypeError
      | None => Normal "[object Object]"
      end
  end.

Definition isDigit (c : ascii) : bool :=
  let n := nat_of_ascii c in ((48 <=? n) && (n <=? 57))%nat.

Fixpoint digitsValue (acc : Z) (s : string) : option Z :=
  match s with
  | EmptyString => Some acc
  | String c r =>
      if isDigit c
      then digitsValue (10 * acc + Z.of_nat (nat_of_ascii c - 48)) r
      else None
  end.

(** StringToNumber on the decimal integer literals, the numbers of this
    model: surrounding white space is dropped, the empty string is [0],
    and any other text is [NaN], here [None]. *)
Definition stringToNumber (s : string) : option Z :=
  match JsString.trim s with
  | EmptyString => Some 0%Z
  | String "+" (String c r) => digitsValue 0 (String c r)
  | String "-" (String c r) => option_map Z.opp (digitsValue 0 (String c r))
  | t => digitsValue 0 t
  end.

(** ToNumber; [None] is [NaN]. *)
Definition toNumber (v : json) : completion (option Z) :=
  match v with
  | JNull => Normal (Some 0%Z)
  | JBool b => Normal (Some (if b then 1 else 0)%Z)
  | JNum n => Normal (Some n)
  | JStr s => Normal (stringToNumber s)
  | JArr _ | JObj _ => s <- toString v ;; Normal (stringToNumber s)
  end.

(** [v.length > n] for a truthy [v] that is not a string: booleans and
    numbers have no [length], an array has its size, an object its own
    property of that name if any. *)
Definition lengthExceeds (v : json) (n : nat) : completion bool :=
  match v with
  | JArr items => Normal (n <? List.length items)%nat
  | JObj fields =>
      match lookup "length" fields with
      | None => Normal false
      | Some l =>
          x <- toNumber l ;;
          Normal match x with
                 | Some z => (Z.of_nat n <? z)%Z
                 | None => false
                 end
      end
  | _ => Normal false
  end.

(** The elements of an array that satisfy [typeof label === 'string']. *)
Fixpoint strings (l : list json) : list string :=
  match l with
  | [] => []
  | JStr s :: rest => s :: strings rest
  | _ :: rest => strings rest
  end.

End Js.

(** ** Reading a provider's response *)

(** The three response shapes of a captioning model, lines 305-319 (and
    again 346-360 for the analysis pass): an array whose first element has
    a truthy [generated_text], an object with a truthy [generated_text], or
    a non-empty string.  [None] is the [Unexpected response format] branch. *)
Definition extractText (data : json) : option json :=
  match
    (if Js.truthy data && Js.isArray data
     then Js.truthyValue (Js.firstElementField data "generated_text")
     else None)
  with
  | Some text => Some text
  | None =>
      match
        (if Js.truthy data && Js.typeofObject data
         then Js.truthyValue (Js.field data "generated_text")
         else None)
      with
      | Some text => Some text
      | None =>
          if Js.truthy data && Js.typeofString data then Some data else None
      end
  end.

(** [item => item.label || item.generated_text || item], line 391.  Reading
    a property of [null] throws. *)
Definition labelOf (item : json) : completion json :=
  match item with
  | JNull => Throw TypeError
  | _ =>
      Normal
        match Js.truthyValue (Js.field item "label") with
        | Some label => label
        | None =>
            match Js.truthyValue (Js.field item "generated_text") with
            | Some text => text
            | None => item
            end
        end
  end.

(** [response.data.slice(0, 3).map(...).filter(...)], lines 389-392, for a
    response that passed the test of line 388; [None] when it did not. *)
Definition extractLabels (data : json) : completion (option (list string)) :=
  match data with
  | JArr items =>
      labels <- mapM labelOf (firstn 3 items) ;;
      Normal (Some (Js.strings labels))
  | _ => Normal None
  end.

(** ** The fallback loops *)

Inductive capability : Type :=
| Caption
| Analysis
| Classification.

(** One HTTP call: the capability being attempted and the model called. *)
Record attempt := mkAttempt {
  capabilityOf : capability;
  provider : string
}.

(** What [axios.post] does: it rejects (network failure, status outside
    2xx, timeout) or resolves with the parsed body. *)
Inductive outcome : Type :=
| GatewayError
| Response (data : json).

(** The outcome of the n-th HTTP call of a run. *)
Definition network := nat -> outcome.

(** The [results] object of lines 276-283. *)
Record Results := mkResults {
  captionSuccess : bool;
  analysisSuccess : bool;
  classificationSuccess : bool;
  captionText : json;
  analysisText : json;
  classifications : list string
}.

Definition initialResults : Results :=
  {| captionSuccess := false;
     analysisSuccess := false;
     classificationSuccess := false;
     captionText := JStr "";
     analysisText := JStr "";
     classifications := [] |}.

Record State := mkState {
  results : Results;
  trace : list attempt
}.

Definition succeeded (cap : capability) (r : Results) : bool :=
  match cap with
  | Caption => captionSuccess r
  | Analysis => analysisSuccess r
  | Classification => classificationSuccess r
  end.

(** The body of a loop's [try] block after the call has resolved.  An
    exception raised there is caught by the loop's own [catch], which only
    logs: such a response leaves [results] as it was.  The log line that
    follows each assignment has no effect on [results]. *)
Definition handleResponse (cap : capability) (data : json) (r : Results)
  : Results :=
  match cap with
  | Caption =>
      match extractText data with
      | Some text =>
          {| captionSuccess := true;
             analysisSuccess := analysisSuccess r;
             classificationSuccess := classificationSuccess r;
             captionText := text;
             analysisText := analysisText r;
             classifications := classifications r |}
      | None => r
      end
  | Analysis =>
      match extractText data with
      | Some text =>
          {| captionSuccess := captionSuccess r;
             analysisSuccess := true;
             classificationSuccess := classificationSuccess r;
             captionText := captionText r;
             analysisText := text;
             classifications := classifications r |}
      | None => r
      end
  | Classification =>
      match extractLabels data with
      | Normal (Some labels) =>
          {| captionSuccess := captionSuccess r;
             analysisSuccess := analysisSuccess r;
             classificationSuccess :=
               if (0 <? List.length labels)%nat then true
               else classificationSuccess r;
             captionText := captionText r;
             analysisText := analysisText r;
             classifications := labels |}
      | Normal None => r
      | Throw _ => r
      end
  end.

(** [for (const model of models) { if (success) break; try { ... } catch
    { ... } }], lines 286-323, 327-364 and 369-402. *)
Fixpoint tryModels (cap : capability) (net : network) (models : list string)
  (st : State) : State :=
  match models with
  | [] => st
  | model :: rest =>
      if succeeded cap (results st) then st
      else
        let reply := net (List.length (trace st)) in
        let called := (trace st ++ [mkAttempt cap model])%list in
        tryModels cap net rest
          {| results :=
               match reply with
               | GatewayError => results st
               | Response data => handleResponse cap data (results st)
               end;
             trace := called |}
  end.

(** The model lists of lines 255-273. *)
Definition models (cap : capability) : list string :=
  match cap with
  | Caption =>
      ["Salesforce/blip-image-captioning-large";
       "microsoft/git-base-coco";
       "nlpconnect/vit-gpt2-image-captioning";
       "Salesforce/blip-image-captioning-base"]
  | Analysis =>
      ["Salesforce/blip-image-captioning-large";
       "Salesforce/blip-image-captioning-base";
       "microsoft/git-base-coco";
       "nlpconnect/vit-gpt2-image-captioning"]
  | Classification =>
      ["microsoft/resnet-50";
       "facebook/deit-base-distilled-patch16-224";
       "google/vit-base-patch16-224"]
  end.

(** ** The entry points *)

(** [!!huggingfaceToken]: the variable is set and not empty. *)
Definition tokenConfigured (token : option string) : bool :=
  match token with
  | Some t => JsString.truthy t
  | None => false
  end.

(** What a run of [analyzeImageWithAI] depends on: the environment variable,
    the file system and the outcomes of its HTTP calls. *)
Record Env := mkEnv {
  HUGGINGFACE_API_TOKEN : option string;
  readFileSync : string -> completion (list byte);
  axiosPost : network
}.

(** [formatAltText(results.captionText)], line 411: [text.trim()] throws on
    every value that is not a string. *)
Definition formatAltTextOf (text : json) : completion string :=
  match text with
  | JStr s => Normal (formatAltText s)
  | _ => Throw TypeError
  end.

(** [formatCaption(results.analysisText, ...)], line 416, for an analysis
    text of any type.  A value without a [length] above the caption's falls
    through to the basic caption as the empty string does; one with such a
    [length] reaches [detailedText.replace], which only a string has. *)
Definition formatCaptionOf (detailedText : json)
  (basicCaption classifications : string) : completion string :=
  match detailedText with
  | JStr d => Normal (formatCaption d basicCaption classifications)
  | _ =>
      if Js.truthy detailedText
      then
        longer <- Js.lengthExceeds detailedText (String.length basicCaption) ;;
        if longer : bool then Throw TypeError
        else Normal (formatCaption "" basicCaption classifications)
      else Normal (formatCaption "" basicCaption classifications)
  end.

(** Lines 405-426: the result built from what the loops collected. *)
Definition buildResult (r : Results) : completion AnalysisResult :=
  if negb (captionSuccess r) then Normal getMockAnalysisResults
  else
    altText <- formatAltTextOf (captionText r) ;;
    match captionText r with
    | JStr captionText =>
        let labels := JsString.join ", " (classifications r) in
        caption <-
          (if analysisSuccess r && Js.truthy (analysisText r)
           then formatCaptionOf (analysisText r) captionText labels
           else if classificationSuccess r
           then Normal (captionText ++ ". This image contains: " ++ labels
                          ++ ".")
           else Normal captionText) ;;
        Normal {| altText := altText; caption := caption |}
    | _ => Throw TypeError
    end.

(** The three loops of lines 285-403, in order; the second and third run
    only after a caption was found. *)
Definition runModels (net : network) : State :=
  let st := {| results := initialResults; trace := [] |} in
  let st := tryModels Caption net (models Caption) st in
  let st :=
    if captionSuccess (results st)
    then tryModels Analysis net (models Analysis) st else st in
  let st :=
    if captionSuccess (results st)
    then tryModels Classification net (models Classification) st else st in
  st.

(** [analyzeImageWithAI], lines 235-431, with the calls it made.  Whatever
    the body throws is caught at line 427, which returns the mock result. *)
Definition analyzeImageWithAI (env : Env) (imagePath : string)
  : AnalysisResult * list attempt :=
  if negb (tokenConfigured (HUGGINGFACE_API_TOKEN env))
  then (getMockAnalysisResults, [])
  else
    match readFileSync env imagePath with
    | Throw _ => (getMockAnalysisResults, [])
    | Normal imageBuffer =>
        let st := runModels (axiosPost env) in
        match buildResult (results st) with
        | Normal result => (result, trace st)
        | Throw _ => (getMockAnalysisResults, trace st)
        end
    end.

(** What [textToImageWithAI] hands back: [response.data], or the object of
    [getMockAnalysisResults].  The request of line 467 names the response
    type ['arrayBuffer'], which axios does not know (it knows
    ['arraybuffer']), so [response.data] is the body decoded as text, not
    the bytes of the image. *)
Inductive Generated : Type :=
| ResponseData (data : string)
| Placeholder (result : AnalysisResult).

(** The outcome of the one call to the image model: it rejects, or it
    resolves with [response.data]. *)
Inductive generation : Type :=
| GenerationError
| GenerationResponse (data : string).

(** [textToImageWithAI], lines 433-484: an inner [try] around the call
    whose [catch] logs and rethrows, inside an outer [try] whose [catch]
    returns [getMockAnalysisResults()]. *)
Definition textToImageWithAI (token : option string)
  (post : string -> generation) (prompt : string) : completion Generated :=
  tryCatch
    (if negb (tokenConfigured token)
     then Normal (Placeholder getMockAnalysisResults)
     else
       tryCatch
         (match post prompt with
          | GenerationError => Throw RequestFailed
          | GenerationResponse data => Normal (ResponseData data)
          end)
         (fun error => Throw error))
    (fun _ => Normal (Placeholder getMockAnalysisResults)).

(** The reply of the route [/api/generate-image], lines 728-738: status
    200 with what the service returned, or 500 when it threw. *)
Inductive Reply : Type :=
| Ok (body : Generated)
| InternalServerError.

Definition generateImageRoute (token : option string)
  (post : string -> generation) (prompt : string) : Reply :=
  match textToImageWithAI token post prompt with
  | Normal imageBuffer => Ok imageBuffer
  | Throw _ => InternalServerError
  end.

(** ** Notions of the specification, defined over the code above *)

(** What the specification's normalizer hands to the orchestrator. *)
Inductive normalized : Type :=
| Text (text : json)
| Labels (labels : list string).

(** The usable result an outcome carries for a capability, if any:
    [GatewayError] and responses the loop body takes nothing from carry
    none. *)
Definition normalize (cap : capability) (reply : outcome)
  : option normalized :=
  match reply with
  | GatewayError => None
  | Response data =>
      match cap with
      | Caption | Analysis => option_map Text (extractText data)
      | Classification =>
          match extractLabels data with
          | Normal (Some (label :: more)) => Some (Labels (label :: more))
          | _ => None
          end
      end
  end.

(** What [results] holds for a capability. *)
Definition recorded (cap : capability) (r : Results) : normalized :=
  match cap with
  | Caption => Text (captionText r)
  | Analysis => Text (analysisText r)
  | Classification => Labels (classifications r)
  end.

(** The label of a classification entry in the specification's words: its
    [label] field, else its [generated_text] field, else the entry itself. *)
Definition specLabel (entry : json) : json :=
  match Js.truthyValue (Js.field entry "label") with
  | Some label => label
  | None =>
      match Js.truthyValue (Js.field entry "generated_text") with
      | Some text => text
      | None => entry
      end
  end.

(** Classification normalization in the specification's words: extract
    every entry's label, discard what is not a string, keep at most the
    first 3 surviving labels. *)
Definition specLabels (entries : list json) : list string :=
  firstn 3 (Js.strings (map specLabel entries)).

(** A loop over [providers] whose first call is call number [start] of the
    run finds its first usable result, [v], at position [k]. *)
Definition firstUsable (cap : capability) (net : network)
  (providers : list string) (start k : nat) (v : normalized) : Prop :=
  k < List.length providers /\
  (forall j, j < k -> normalize cap (net (start + j)) = None) /\
  normalize cap (net (start + k)) = Some v.

(** Every provider of such a loop fails or answers with something
    unusable. *)
Definition allUnusable (cap : capability) (net : network)
  (providers : list string) (start : nat) : Prop :=
  forall j, j < List.length providers ->
  normalize cap (net (start + j)) = None.

(** A recorded caption text is truthy. *)
Definition captionRecorded (r : Results) : Prop :=
  captionSuccess r = true -> Js.truthy (captionText r) = true.

(** The text as [formatAltText] has it after lines 524-527: trimmed and
    without one trailing period. *)
Definition strippedText (text : string) : string :=
  if JsString.endsWith (JsString.trim text) "."
  then JsString.dropLast (JsString.trim text)
  else JsString.trim text.

Definition isNull (v : json) : bool :=
  match v with JNull => true | _ => false end.

(** A string of [n] copies of [c]. *)
Fixpoint replicate (n : nat) (c : ascii) : string :=
  match n with
  | O => EmptyString
  | S m => String c (replicate m c)
  end.

(** ** The upload path: processUploadedImage, its route and the upload filter *)

(** The disk, as far as the service touches it: the content of every file
    that exists.  Reading or deleting a file fails when the file is not
    there; other failures of the operating system are not modelled. *)
Definition FileSystem := string -> option (list byte).

(** [fs.existsSync(p)] *)
Definition fsExistsSync (disk : FileSystem) (p : string) : bool :=
  match disk p with
  | Some _ => true
  | None => false
  end.

(** [fs.readFileSync(p)] *)
Definition fsReadFileSync (disk : FileSystem) (p : string)
  : completion (list byte) :=
  match disk p with
  | Some content => Normal content
  | None => Throw IOError
  end.

(** [fs.unlinkSync(p)]: the disk without [p]. *)
Definition fsUnlinkSync (disk : FileSystem) (p : string)
  : completion FileSystem :=
  if fsExistsSync disk p
  then Normal (fun q => if (q =? p)%string then None else disk q)
  else Throw IOError.

(** [req.file], as multer fills it in. *)
Record UploadedFile := mkUploadedFile {
  filePath : string;
  originalname : string
}.

(** What [processUploadedImage] throws: its own
    [new Error('No image file provided')] or an exception of the runtime. *)
Inductive failure : Type :=
| NoImageFileProvided
| Raised (e : exn).

Inductive Processed : Type :=
| Done (results : AnalysisResult)
| Failed (error : failure).

(** [processUploadedImage], lines 491-515, with the disk it leaves and the
    HTTP calls it made.  [analyzeImageWithAI] catches whatever it raises, so
    in the [try] block only [fs.unlinkSync] can throw. *)
Definition processUploadedImage (token : option string) (net : network)
  (disk : FileSystem) (file : option UploadedFile)
  : Processed * FileSystem * list attempt :=
  match file with
  | None => (Failed NoImageFileProvided, disk, [])
  | Some f =>
      let imagePath := filePath f in
      let env := {| HUGGINGFACE_API_TOKEN := token;
                    readFileSync := fsReadFileSync disk;
                    axiosPost := net |} in
      let (results, calls) := analyzeImageWithAI env imagePath in
      match fsUnlinkSync disk imagePath with
      | Normal disk' => (Done results, disk', calls)
      | Throw error =>
          if fsExistsSync disk imagePath
          then
            match fsUnlinkSync disk imagePath with
            | Normal disk' => (Failed (Raised error), disk', calls)
            | Throw error' => (Failed (Raised error'), disk, calls)
            end
          else (Failed (Raised error), disk, calls)
      end
  end.



(** The [fileFilter] of the upload, lines 686-692: the name must match
    [/\.(jpg|jpeg|png|gif)$/]. *)
Definition allowedExtensions : list string :=
  [".jpg"; ".jpeg"; ".png"; ".gif"].

Definition fileFilter (originalname : string) : bool :=
  existsb (JsString.endsWith originalname) allowedExtensions.

(** ** The front end's repair of the alt text *)

Definition isUpper (c : ascii) : bool :=
  let n := nat_of_ascii c in ((65 <=? n) && (n <=? 90))%nat.

Definition isLower (c : ascii) : bool :=
  let n := nat_of_ascii c in ((97 <=? n) && (n <=? 122))%nat.

(** The word characters of [\b]: letters, digits and the underscore. *)
Definition isWordChar (c : ascii) : bool :=
  isUpper c || isLower c || Js.isDigit c || (nat_of_ascii c =? 95)%nat.

(** The number of characters at the start of [s] that satisfy [p]. *)
Fixpoint spanLength (p : ascii -> bool) (s : string) : nat :=
  match s with
  | EmptyString => 0
  | String c r => if p c then S (spanLength p r) else 0
  end.

(** [s.slice(n)] by recursion. *)
Fixpoint drop (n : nat) (s : string) : string :=
  match n, s with
  | O, _ => s
  | S m, EmptyString => EmptyString
  | S m, String _ r => drop m r
  end.

(** A match of [/([A-Z])\s+([a-z]+)\b/] at the start of [s]: a capital,
    the whole run of white space after it, the whole run of lower-case
    letters after that, and then the end of the text or a character that is
    not a word character.  Both runs must be non-empty; a shorter run never
    gives a match, since the character that follows it belongs to the run.
    The result is the length of the two runs. *)
Definition matchSeparated (s : string) : option (nat * nat) :=
  match s with
  | EmptyString => None
  | String c r =>
      let spaces := spanLength JsString.isWhiteSpace r in
      let letters := spanLength isLower (drop spaces r) in
      let after := drop letters (drop spaces r) in
      if isUpper c && (0 <? spaces)%nat && (0 <? letters)%nat
         && match after with
            | EmptyString => true
            | String x _ => negb (isWordChar x)
            end
      then Some (spaces, letters)
      else None
  end.

(** [inputString.replace(/\b([A-Z])\s+([a-z]+)\b/g, ...)] from left to
    right.  [skip] counts the characters of the current match that are
    still to be passed over, [prevWord] tells whether the character before
    [s] is a word character: a match can start only where it is not. *)
Fixpoint replaceSeparated (skip : nat) (prevWord : bool) (s : string)
  : string :=
  match s with
  | EmptyString => EmptyString
  | String c r =>
      match skip with
      | S n => replaceSeparated n (isWordChar c) r
      | O =>
          match (if prevWord then None else matchSeparated s) with
          | Some (spaces, letters) =>
              String c (String.substring spaces letters r)
                ++ replaceSeparated (spaces + letters) true r
          | None => String c (replaceSeparated 0 (isWordChar c) r)
          end
      end
  end.

(** [fixSeparatedFirstLetters] of the image analyzer component, which the
    alt text passes through before it is shown. *)
Definition fixSeparatedFirstLetters (inputString : string) : string :=
  replaceSeparated 0 false inputString.

(** ** Further notions used in the statements *)

(** Every character of [s] satisfies [p]. *)
Fixpoint forallChars (p : ascii -> bool) (s : string) : bool :=
  match s with
  | EmptyString => true
  | String c r => p c && forallChars p r
  end.

(** [s] is empty or starts with a character that is not a word character:
    a word that ends just before [s] ends at a word boundary. *)
Definition startsOutsideWord (s : string) : bool :=
  match s with
  | EmptyString => true
  | String x _ => negb (isWordChar x)
  end.

Definition notUpper (c : ascii) : bool := negb (isUpper c).

(** A string of white space only. *)
Fixpoint allWhiteSpace (s : string) : bool :=
  match s with
  | EmptyString => true
  | String c r => JsString.isWhiteSpace c && allWhiteSpace r
  end.

(** The calls a loop makes when it stops after [n] providers. *)
Definition attempts (cap : capability) (n : nat) : list attempt :=
  map (mkAttempt cap) (firstn n (models cap)).

(** A capability whose flag is unset has recorded nothing. *)
Definition unsetIsInitial (r : Results) : Prop :=
  forall cap, succeeded cap r = false ->
  recorded cap r = recorded cap initialResults.

(** What a loop comes to: no usable result, or the first one and its
    position. *)
Inductive found : Type :=
| NotFound
| FoundAt (k : nat) (v : normalized).

Definition finds (cap : capability) (net : network) (start : nat)
  (f : found) : Prop :=
  match f with
  | NotFound => allUnusable cap net (models cap) start
  | FoundAt k v => firstUsable cap net (models cap) start k v
  end.

(** The number of calls such a loop makes. *)
Definition callsMade (cap : capability) (f : found) : nat :=
  match f with
  | NotFound => List.length (models cap)
  | FoundAt k _ => S k
  end.

Definition flagOf (f : found) : bool :=
  match f with
  | NotFound => false
  | FoundAt _ _ => true
  end.

Definition recordOf (cap : capability) (f : found) : normalized :=
  match f with
  | NotFound => recorded cap initialResults
  | FoundAt _ v => v
  end.

(** * Properties *)

(** ** String lemmas *)

Lemma length_append (a b : string) :
  String.length (a ++ b) = String.length a + String.length b.
Proof.
  induction a as [|c a IH]; simpl; [reflexivity|].
  now rewrite IH.
Qed.

Lemma length_substring (s : string) :
  forall n m, n + m <= String.length s ->
  String.length (String.substring n m s) = m.
Proof.
  induction s as [|c s IH]; intros n m H; simpl in H.
  - assert (n = 0) by lia. assert (m = 0) by lia. subst. reflexivity.
  - destruct n as [|n]; destruct m as [|m]; simpl; try reflexivity.
    + rewrite IH by lia. reflexivity.
    + apply IH. lia.
    + apply IH. lia.
Qed.

Lemma append_assoc (a b c : string) : (a ++ b) ++ c = a ++ (b ++ c).
Proof.
  induction a as [|x a IH]; simpl; [reflexivity|].
  now rewrite IH.
Qed.

Lemma append_empty_r (a : string) : a ++ "" = a.
Proof.
  induction a as [|x a IH]; simpl; [reflexivity|].
  now rewrite IH.
Qed.

Lemma rev_append (a b : string) :
  JsString.rev (a ++ b) = JsString.rev b ++ JsString.rev a.
Proof.
  induction a as [|x a IH]; simpl.
  - now rewrite append_empty_r.
  - now rewrite IH, append_assoc.
Qed.

Lemma prefix_append (a b : string) : String.prefix a (a ++ b) = true.
Proof.
  induction a as [|x a IH]; simpl.
  - now destruct b.
  - destruct (ascii_dec x x) as [_|N]; [exact IH | now elim N].
Qed.

Lemma endsWith_append (a suffix : string) :
  JsString.endsWith (a ++ suffix) suffix = true.
Proof.
  unfold JsString.endsWith.
  rewrite rev_append.
  apply prefix_append.
Qed.

Lemma truthy_nonempty (s : string) :
  JsString.truthy s = true <-> s <> "".
Proof.
  destruct s; simpl; split; intro H; try reflexivity; try discriminate.
  now elim H.
Qed.

Lemma substring_all (s : string) :
  String.substring 0 (String.length s) s = s.
Proof.
  induction s as [|c s IH]; simpl; [reflexivity|].
  now rewrite IH.
Qed.

(** ** formatAltText *)

(** The capitalisation step of line 530 on a non-empty string. *)
Lemma capitalised_cons (c : ascii) (r : string) :
  JsString.toUpperCase (JsString.charAt 0 (String c r)) ++ " "
    ++ JsString.sliceFrom 1 (String c r)
  = String (JsString.upperChar c) (String " " r).
Proof.
  unfold JsString.charAt, JsString.sliceFrom. simpl.
  now rewrite Nat.sub_0_r, substring_all.
Qed.

(** C2.  On ["a cat."] [formatAltText] strips the period and capitalises
    the first letter, and then returns ["A  cat"]: the template literal of
    line 530 puts a space between the capital and the rest, which already
    starts with the space of the input.  On the empty string it returns that
    one space. *)
Theorem formatAltText_separates_first_letter :
  formatAltText "a cat." = "A  cat" /\ formatAltText "" = " ".
Proof. split; reflexivity. Qed.

(** The same capitalisation written with [+], as the front end does, gives
    the strings the specification expects. *)
Lemma capitalizeFirstLetter_examples :
  capitalizeFirstLetter "a cat" = "A cat" /\ capitalizeFirstLetter "" = "".
Proof. split; reflexivity. Qed.

(** Whatever its input, [formatAltText] returns at least the separating
    space. *)
Lemma formatAltText_nonempty (text : string) : formatAltText text <> "".
Proof.
  unfold formatAltText.
  set (a := if JsString.endsWith _ "." then _ else _).
  set (b := JsString.toUpperCase (JsString.charAt 0 a) ++ " "
              ++ JsString.sliceFrom 1 a).
  assert (Hb : 1 <= String.length b).
  { unfold b. rewrite !length_append. simpl. lia. }
  destruct (125 <? String.length b)%nat.
  - intro H. apply (f_equal String.length) in H.
    rewrite length_append in H. simpl in H. lia.
  - intro H. rewrite H in Hb. simpl in Hb. lia.
Qed.

(** C9, as stated, fails.  A 200-character input of spaces is trimmed to
    nothing and comes back as a single character; a 200-character input of
    the letter "a" comes back with a capital first, so its first 122
    characters are not those of the input. *)
Lemma formatAltText_prefix_counterexample :
  (let input := replicate 200 " " in
   String.length input = 200 /\
   String.length (formatAltText input) <> 125) /\
  (let input := replicate 200 "a" in
   String.length input = 200 /\
   JsString.trim input = input /\
   String.get 0 (formatAltText input) = Some "A"%char /\
   JsString.substringTo 122 (formatAltText input)
     <> JsString.substringTo 122 input).
Proof.
  split; cbv zeta.
  - split; [reflexivity|]. vm_compute. discriminate.
  - repeat split; try reflexivity. vm_compute. discriminate.
Qed.

(** C9, amended.  A 200-character input without leading or trailing white
    space is cut: the result has exactly 125 characters and ends in the
    ellipsis marker ["..."]; when the first character of the input is an
    ASCII character, the result starts with that character in upper
    case. *)
Theorem formatAltText_truncates (input : string) :
  String.length input = 200 ->
  JsString.trim input = input ->
  String.length (formatAltText input) = 125 /\
  JsString.endsWith (formatAltText input) "..." = true /\
  (forall c, String.get 0 input = Some c -> nat_of_ascii c < 128 ->
   String.get 0 (formatAltText input) = Some (JsString.upperChar c)).
Proof.
  intros Hlen Htrim.
  unfold formatAltText. rewrite Htrim.
  set (a := if JsString.endsWith input "." then JsString.dropLast input
            else input).
  assert (Ha : exists c r, input = String c r /\ exists r', a = String c r'
                           /\ 198 <= String.length r').
  { destruct input as [|c r]; [discriminate|].
    exists c, r. split; [reflexivity|].
    simpl in Hlen. unfold a.
    destruct (JsString.endsWith (String c r) ".").
    - unfold JsString.dropLast. simpl String.length.
      replace (S (String.length r) - 1) with (S (String.length r - 1))
        by lia.
      simpl. eexists. split; [reflexivity|].
      rewrite length_substring; lia.
    - exists r. split; [reflexivity|]. lia. }
  destruct Ha as (c & r & Hin & r' & Hr' & Hlen').
  rewrite Hr', Hin, capitalised_cons.
  assert (Hlong : (125 <? String.length
                            (String (JsString.upperChar c) (String " " r')))%nat
                  = true).
  { apply Nat.ltb_lt. simpl. lia. }
  rewrite Hlong.
  unfold JsString.substringTo.
  change (String.substring 0 122
            (String (JsString.upperChar c) (String " " r')))
    with (String (JsString.upperChar c)
            (String " " (String.substring 0 120 r'))).
  split; [|split].
  - rewrite length_append. simpl.
    rewrite length_substring by lia. reflexivity.
  - apply endsWith_append.
  - intros c0 H0 _. simpl in H0. injection H0 as <-. reflexivity.
Qed.

Lemma formatAltText_truncates_witness :
  let input := replicate 200 "a" in
  String.length (formatAltText input) = 125 /\
  JsString.endsWith (formatAltText input) "..." = true /\
  String.get 0 (formatAltText input) = Some "A"%char.
Proof.
  destruct (formatAltText_truncates (replicate 200 "a"))
    as (Hlen & Hend & Hfirst); [reflexivity | reflexivity |].
  split; [exact Hlen | split; [exact Hend|]].
  apply (Hfirst "a"%char); [reflexivity | vm_compute; lia].
Defined.

(** ** formatCaption *)

(** C6, as stated, fails: the labels follow the basic caption after a
    space, not after a comma and a space.  Passing the labels as an array
    changes only how they are joined. *)
Lemma formatCaption_separator_counterexample :
  formatCaption "" "a dog" (JsString.join ", " ["animal"; "grass"])
    <> "a dog, The image contains: animal, grass." /\
  formatCaption "" "a dog" (JsString.join "," ["animal"; "grass"])
    <> "a dog, The image contains: animal, grass.".
Proof. split; vm_compute; discriminate. Qed.

(** C6, amended.  With an empty detailed text and a non-empty string of
    labels, [formatCaption] returns the basic caption followed by
    [" The image contains: "], the labels and a final period. *)
Theorem formatCaption_basic_with_labels (basicCaption labels : string) :
  labels <> "" ->
  formatCaption "" basicCaption labels
    = basicCaption ++ " The image contains: " ++ labels ++ ".".
Proof.
  intro H. unfold formatCaption. simpl.
  destruct labels as [|c l]; [now elim H | reflexivity].
Qed.

Lemma formatCaption_basic_with_labels_witness :
  formatCaption "" "a dog" (JsString.join ", " ["animal"; "grass"])
    = "a dog The image contains: animal, grass.".
Proof.
  apply (formatCaption_basic_with_labels "a dog"
           (JsString.join ", " ["animal"; "grass"])).
  discriminate.
Defined.

(** ** textToImageWithAI *)

(** C1.  With a token configured and the call to the image model failing,
    [textToImageWithAI] does not throw: the error rethrown at line 478 is
    caught at line 480 and the mock analysis result is returned, so the
    route answers with status 200 and that object. *)
Theorem textToImageWithAI_swallows_failure :
  let token := Some "hf_token" in
  let post := fun _ : string => GenerationError in
  let prompt := "a tiger doing a handstand" in
  tokenConfigured token = true /\
  textToImageWithAI token post prompt
    = Normal (Placeholder getMockAnalysisResults) /\
  generateImageRoute token post prompt
    = Ok (Placeholder getMockAnalysisResults).
Proof. repeat split. Qed.

(** No run of [textToImageWithAI] throws, so the [catch] of the route is
    dead code. *)
Lemma textToImageWithAI_never_throws (token : option string)
  (post : string -> generation) (prompt : string) (e : exn) :
  textToImageWithAI token post prompt <> Throw e.
Proof.
  unfold textToImageWithAI.
  destruct (tokenConfigured token); simpl; [|discriminate].
  destruct (post prompt); simpl; discriminate.
Qed.

(** ** Reading responses *)

(** C8, as stated, fails for the empty text: none of the three shapes is
    accepted when the text it carries is empty. *)
Lemma extractText_empty_counterexample :
  extractText (JArr [JObj [("generated_text", JStr "")]]) = None /\
  extractText (JObj [("generated_text", JStr "")]) = None /\
  extractText (JStr "") = None.
Proof. repeat split. Qed.

(** C8, amended.  For every non-empty text, the three shapes that carry it
    (an array whose first element has it as [generated_text], an object
    that has it as [generated_text], and the bare string) all give that
    text. *)
Theorem extractText_shape_invariant (t : string)
  (fields : list (string * json)) (rest : list json) :
  t <> "" ->
  Js.lookup "generated_text" fields = Some (JStr t) ->
  extractText (JArr (JObj fields :: rest)) = Some (JStr t) /\
  extractText (JObj fields) = Some (JStr t) /\
  extractText (JStr t) = Some (JStr t).
Proof.
  intros Ht Hf.
  assert (Htruthy : JsString.truthy t = true) by now apply truthy_nonempty.
  unfold extractText; simpl; rewrite ?Hf; simpl; rewrite Htruthy.
  repeat split.
Qed.

Lemma extractText_shape_invariant_witness :
  extractText (JArr [JObj [("generated_text", JStr "a dog")]])
    = Some (JStr "a dog") /\
  extractText (JObj [("generated_text", JStr "a dog")])
    = Some (JStr "a dog") /\
  extractText (JStr "a dog") = Some (JStr "a dog").
Proof.
  apply (extractText_shape_invariant "a dog"
           [("generated_text", JStr "a dog")] []).
  - discriminate.
  - reflexivity.
Defined.

(** What [extractText] accepts is truthy. *)
Lemma extractText_truthy (data text : json) :
  extractText data = Some text -> Js.truthy text = true.
Proof.
  unfold extractText.
  assert (Htv : forall v t, Js.truthyValue v = Some t -> Js.truthy t = true).
  { intros [v|] t; simpl; [|discriminate].
    destruct (Js.truthy v) eqn:E; [|discriminate].
    intro H; injection H as <-; exact E. }
  destruct (Js.truthy data && Js.isArray data).
  - destruct (Js.truthyValue (Js.firstElementField data "generated_text"))
      eqn:E1.
    + intro H; injection H as <-. eauto.
    + destruct (Js.truthy data && Js.typeofObject data).
      * destruct (Js.truthyValue (Js.field data "generated_text")) eqn:E2.
        -- intro H; injection H as <-. eauto.
        -- destruct (Js.truthy data) eqn:E3; simpl; [|discriminate].
           destruct (Js.typeofString data); [|discriminate].
           intro H; injection H as <-. exact E3.
      * destruct (Js.truthy data) eqn:E3; simpl; [|discriminate].
        destruct (Js.typeofString data); [|discriminate].
        intro H; injection H as <-. exact E3.
  - destruct (Js.truthy data && Js.typeofObject data).
    + destruct (Js.truthyValue (Js.field data "generated_text")) eqn:E2.
      * intro H; injection H as <-. eauto.
      * destruct (Js.truthy data) eqn:E3; simpl; [|discriminate].
        destruct (Js.typeofString data); [|discriminate].
        intro H; injection H as <-. exact E3.
    + destruct (Js.truthy data) eqn:E3; simpl; [|discriminate].
      destruct (Js.typeofString data); [|discriminate].
      intro H; injection H as <-. exact E3.
Qed.

Lemma strings_length (l : list json) :
  List.length (Js.strings l) <= List.length l.
Proof.
  induction l as [|v l IH]; simpl; [lia|].
  destruct v; simpl; lia.
Qed.

Lemma labelOf_specLabel (item : json) :
  labelOf item = if isNull item then Throw TypeError
                 else Normal (specLabel item).
Proof. destruct item; reflexivity. Qed.

Lemma mapM_labelOf (l : list json) :
  mapM labelOf l = if existsb isNull l then Throw TypeError
                   else Normal (map specLabel l).
Proof.
  induction l as [|item l IH]; simpl; [reflexivity|].
  rewrite labelOf_specLabel.
  destruct (isNull item); simpl; [reflexivity|].
  rewrite IH. now destruct (existsb isNull l).
Qed.

(** C7, as stated, fails: the response is cut to its first 3 entries before
    the non-strings are discarded, so a non-string among them costs a
    label. *)
Lemma extractLabels_counterexample :
  let entries := [JNum 5; JStr "a"; JStr "b"; JStr "c"] in
  specLabels entries = ["a"; "b"; "c"] /\
  extractLabels (JArr entries) = Normal (Some ["a"; "b"]) /\
  extractLabels (JArr entries) <> Normal (Some (specLabels entries)).
Proof. repeat split. vm_compute. discriminate. Qed.

(** C7, amended.  Normalization looks at the first 3 entries of the
    response only: it extracts each one's label (its truthy [label], else
    its truthy [generated_text], else the entry itself), discards what is
    not a string and returns the surviving labels in order, at most 3.  A
    [null] among those entries makes the attempt fail instead. *)
Theorem extractLabels_first_three (entries : list json) :
  extractLabels (JArr entries)
    = (if existsb isNull (firstn 3 entries) then Throw TypeError
       else Normal (Some (specLabels (firstn 3 entries)))) /\
  List.length (specLabels (firstn 3 entries)) <= 3.
Proof.
  split.
  - unfold extractLabels. rewrite mapM_labelOf.
    destruct (existsb isNull (firstn 3 entries)); cbn [bind]; [reflexivity|].
    unfold specLabels.
    rewrite (firstn_all2 (Js.strings (map specLabel (firstn 3 entries))));
      [reflexivity|].
    etransitivity; [apply strings_length|].
    rewrite length_map. apply firstn_le_length.
  - unfold specLabels. apply firstn_le_length.
Qed.

(** ** The fallback loops *)

Lemma tryModels_done (cap : capability) (net : network)
  (providers : list string) (st : State) :
  succeeded cap (results st) = true ->
  tryModels cap net providers st = st.
Proof.
  intro H. destruct providers; simpl; [reflexivity|].
  now rewrite H.
Qed.

(** A call without a usable result leaves the success flag alone. *)
Lemma unusable_keeps_flag (cap : capability) (reply : outcome) (r : Results) :
  normalize cap reply = None ->
  succeeded cap
    match reply with
    | GatewayError => r
    | Response data => handleResponse cap data r
    end = succeeded cap r.
Proof.
  destruct reply as [|data]; [reflexivity|].
  unfold normalize, handleResponse.
  destruct cap.
  - destruct (extractText data); [discriminate | reflexivity].
  - destruct (extractText data); [discriminate | reflexivity].
  - destruct (extractLabels data) as [[[|l ls]|]|]; try discriminate;
      reflexivity.
Qed.

(** A call with a usable result sets the flag and records the result. *)
Lemma usable_recorded (cap : capability) (reply : outcome) (r : Results)
  (v : normalized) :
  normalize cap reply = Some v ->
  let r' := match reply with
            | GatewayError => r
            | Response data => handleResponse cap data r
            end in
  succeeded cap r' = true /\ recorded cap r' = v.
Proof.
  destruct reply as [|data]; [discriminate|].
  unfold normalize, handleResponse.
  destruct cap.
  - destruct (extractText data); [|discriminate].
    intro H; injection H as <-. now split.
  - destruct (extractText data); [|discriminate].
    intro H; injection H as <-. now split.
  - destruct (extractLabels data) as [[[|l ls]|]|]; try discriminate.
    intro H; injection H as <-. now split.
Qed.

(** The loop stops at the first usable result: it has then called the
    providers up to that one, set the flag and recorded the result. *)
Lemma tryModels_first_usable (cap : capability) (net : network)
  (providers : list string) (st : State) (k : nat) (v : normalized) :
  succeeded cap (results st) = false ->
  firstUsable cap net providers (List.length (trace st)) k v ->
  let st' := tryModels cap net providers st in
  trace st' = (trace st ++ map (mkAttempt cap) (firstn (S k) providers))%list /\
  succeeded cap (results st') = true /\
  recorded cap (results st') = v.
Proof.
  revert st k.
  induction providers as [|model rest IH]; intros st k Hflag (Hk & Hbefore & Hat).
  - simpl in Hk. lia.
  - cbn [tryModels]. rewrite Hflag.
    set (st1 := {| results := _; trace := _ |}).
    assert (Hlen : List.length (trace st1) = S (List.length (trace st))).
    { unfold st1; simpl. rewrite length_app. simpl. lia. }
    destruct k as [|k].
    + rewrite Nat.add_0_r in Hat.
      destruct (usable_recorded cap _ (results st) v Hat) as [Hs Hr].
      rewrite tryModels_done by exact Hs.
      split; [|split; [exact Hs | exact Hr]].
      unfold st1; simpl. now destruct rest.
    + assert (Hflag1 : succeeded cap (results st1) = false).
      { unfold st1; cbn [results].
        rewrite unusable_keeps_flag; [exact Hflag|].
        rewrite <- (Nat.add_0_r (List.length (trace st))).
        apply Hbefore. lia. }
      destruct (IH st1 k Hflag1) as (Ht & Hs & Hr).
      { rewrite Hlen. split; [|split].
        - simpl in Hk. lia.
        - intros j Hj.
          replace (S (List.length (trace st)) + j)
            with (List.length (trace st) + S j) by lia.
          apply Hbefore. lia.
        - replace (S (List.length (trace st)) + k)
            with (List.length (trace st) + S k) by lia.
          exact Hat. }
      split; [|split; [exact Hs | exact Hr]].
      rewrite Ht. unfold st1; cbn [trace].
      rewrite <- app_assoc. reflexivity.
Qed.

(** C3.  When the provider at position [k] of a capability's list is the
    first with a usable result, the loop calls the providers up to position
    [k] and none after it, and ends with the success flag set and the result
    of provider [k] recorded. *)
Theorem tryModels_short_circuit (cap : capability) (net : network)
  (providers : list string) (st : State) (k : nat) (v : normalized) :
  succeeded cap (results st) = false ->
  firstUsable cap net providers (List.length (trace st)) k v ->
  let st' := tryModels cap net providers st in
  trace st' = (trace st ++ map (mkAttempt cap) (firstn (S k) providers))%list /\
  List.length (trace st') = List.length (trace st) + S k /\
  succeeded cap (results st') = true /\
  recorded cap (results st') = v.
Proof.
  intros Hflag Hfirst.
  destruct (tryModels_first_usable cap net providers st k v Hflag Hfirst)
    as (Ht & Hs & Hr).
  cbv zeta. split; [exact Ht | split; [|split; [exact Hs | exact Hr]]].
  rewrite Ht, length_app, length_map.
  rewrite firstn_length_le; [reflexivity|].
  destruct Hfirst as [Hk _]. lia.
Qed.

Lemma tryModels_short_circuit_witness :
  let net := fun n : nat =>
    match n with
    | 0 => GatewayError
    | 1 => Response (JStr "")
    | _ => Response (JArr [JObj [("generated_text", JStr "a dog")]])
    end in
  let st := {| results := initialResults; trace := [] |} in
  let st' := tryModels Caption net (models Caption) st in
  trace st'
    = ([] ++ map (mkAttempt Caption) (firstn 3 (models Caption)))%list /\
  List.length (trace st') = 0 + 3 /\
  succeeded Caption (results st') = true /\
  recorded Caption (results st') = Text (JStr "a dog").
Proof.
  intros net st.
  apply (tryModels_short_circuit Caption net (models Caption) st 2
           (Text (JStr "a dog"))).
  - reflexivity.
  - split; [|split].
    + simpl. lia.
    + intros [|[|j]] Hj; [reflexivity | reflexivity | lia].
    + reflexivity.
Defined.

(** When no provider of a loop has a usable result, the loop calls them all
    and ends with the flag unset. *)
Lemma tryModels_exhausted (cap : capability) (net : network)
  (providers : list string) (st : State) :
  succeeded cap (results st) = false ->
  allUnusable cap net providers (List.length (trace st)) ->
  let st' := tryModels cap net providers st in
  trace st' = (trace st ++ map (mkAttempt cap) providers)%list /\
  succeeded cap (results st') = false.
Proof.
  revert st.
  induction providers as [|model rest IH]; intros st Hflag Hall.
  - simpl. now rewrite app_nil_r.
  - cbn [tryModels]. rewrite Hflag.
    set (st1 := {| results := _; trace := _ |}).
    assert (Hlen : List.length (trace st1) = S (List.length (trace st))).
    { unfold st1; simpl. rewrite length_app. simpl. lia. }
    assert (Hflag1 : succeeded cap (results st1) = false).
    { unfold st1; cbn [results].
      rewrite unusable_keeps_flag; [exact Hflag|].
      rewrite <- (Nat.add_0_r (List.length (trace st))).
      apply Hall. simpl. lia. }
    destruct (IH st1 Hflag1) as (Ht & Hs).
    { intros j Hj. rewrite Hlen.
      replace (S (List.length (trace st)) + j)
        with (List.length (trace st) + S j) by lia.
      apply Hall. simpl. lia. }
    split; [|exact Hs].
    rewrite Ht. unfold st1; cbn [trace].
    rewrite <- app_assoc. reflexivity.
Qed.

(** What every response handler preserves, every loop preserves. *)
Lemma tryModels_invariant (P : Results -> Prop) (cap : capability)
  (net : network) (providers : list string) :
  (forall data r, P r -> P (handleResponse cap data r)) ->
  forall st, P (results st) -> P (results (tryModels cap net providers st)).
Proof.
  intro Hstep.
  induction providers as [|model rest IH]; intros st HP; [exact HP|].
  cbn [tryModels].
  destruct (succeeded cap (results st)); [exact HP|].
  apply IH. cbn [results].
  destruct (net (List.length (trace st))); [exact HP | now apply Hstep].
Qed.

Lemma handleResponse_captionRecorded (cap : capability) (data : json)
  (r : Results) :
  captionRecorded r -> captionRecorded (handleResponse cap data r).
Proof.
  unfold captionRecorded, handleResponse. intro H.
  destruct cap.
  - destruct (extractText data) eqn:E; [|exact H].
    intros _. simpl. eapply extractText_truthy; eassumption.
  - destruct (extractText data); exact H.
  - destruct (extractLabels data) as [[labels|]|]; exact H.
Qed.

(** A response handled for one capability changes neither the flag nor the
    record of another. *)
Lemma handleResponse_frame (cap other : capability) (data : json)
  (r : Results) :
  cap <> other ->
  succeeded other (handleResponse cap data r) = succeeded other r /\
  recorded other (handleResponse cap data r) = recorded other r.
Proof.
  intro Hneq. unfold handleResponse.
  destruct cap.
  - destruct (extractText data); [|now split].
    destruct other; [now elim Hneq | now split | now split].
  - destruct (extractText data); [|now split].
    destruct other; [now split | now elim Hneq | now split].
  - destruct (extractLabels data) as [[labels|]|]; try now split.
    destruct other; [now split | now split | now elim Hneq].
Qed.

Lemma tryModels_frame (cap other : capability) (net : network)
  (providers : list string) (st : State) :
  cap <> other ->
  succeeded other (results (tryModels cap net providers st))
    = succeeded other (results st) /\
  recorded other (results (tryModels cap net providers st))
    = recorded other (results st).
Proof.
  intro Hneq.
  apply (tryModels_invariant
           (fun r => succeeded other r = succeeded other (results st) /\
                     recorded other r = recorded other (results st))).
  - intros data r [H1 H2].
    destruct (handleResponse_frame cap other data r Hneq) as [-> ->].
    now split.
  - now split.
Qed.

(** The three loops of [runModels], with the two tests of the caption flag
    merged: the analysis loop does not change that flag. *)
Lemma runModels_unfold (net : network) :
  runModels net =
    let st1 := tryModels Caption net (models Caption)
                 {| results := initialResults; trace := [] |} in
    if captionSuccess (results st1)
    then tryModels Classification net (models Classification)
           (tryModels Analysis net (models Analysis) st1)
    else st1.
Proof.
  unfold runModels. cbv zeta.
  set (st1 := tryModels Caption net (models Caption) _).
  destruct (captionSuccess (results st1)) eqn:E.
  - destruct (tryModels_frame Analysis Caption net (models Analysis) st1)
      as [Hflag _]; [discriminate|].
    cbn [succeeded] in Hflag. rewrite Hflag. now rewrite E.
  - now rewrite E.
Qed.

Lemma runModels_captionRecorded (net : network) :
  captionRecorded (results (runModels net)).
Proof.
  rewrite runModels_unfold. cbv zeta.
  set (st1 := tryModels Caption net (models Caption) _).
  assert (H1 : captionRecorded (results st1)).
  { apply tryModels_invariant.
    - intros; now apply handleResponse_captionRecorded.
    - intro H; discriminate H. }
  destruct (captionSuccess (results st1)); [|exact H1].
  apply tryModels_invariant;
    [intros; now apply handleResponse_captionRecorded|].
  apply tryModels_invariant;
    [intros; now apply handleResponse_captionRecorded|].
  exact H1.
Qed.

(** ** analyzeImageWithAI *)

(** C4.  When no provider of the caption list has a usable result,
    [analyzeImageWithAI] returns the mock result and every call it made was
    a caption attempt: the analysis and classification loops did not run. *)
Theorem analyze_without_caption (env : Env) (imagePath : string) :
  allUnusable Caption (axiosPost env) (models Caption) 0 ->
  fst (analyzeImageWithAI env imagePath) = getMockAnalysisResults /\
  Forall (fun call => capabilityOf call = Caption)
    (snd (analyzeImageWithAI env imagePath)).
Proof.
  intro Hall.
  unfold analyzeImageWithAI.
  destruct (tokenConfigured (HUGGINGFACE_API_TOKEN env)); cbn [negb];
    [|split; [reflexivity | constructor]].
  destruct (readFileSync env imagePath) as [imageBuffer|];
    [|split; [reflexivity | constructor]].
  destruct (tryModels_exhausted Caption (axiosPost env) (models Caption)
              {| results := initialResults; trace := [] |} eq_refl Hall)
    as [Htrace Hflag].
  cbn [succeeded] in Hflag.
  rewrite runModels_unfold. cbv zeta. rewrite Hflag.
  unfold buildResult. rewrite Hflag. cbn [negb fst snd].
  split; [reflexivity|].
  rewrite Htrace. cbn [trace app].
  apply Forall_forall. intros call Hin.
  apply in_map_iff in Hin. destruct Hin as (model & <- & _). reflexivity.
Qed.

Lemma analyze_without_caption_witness :
  let env := {| HUGGINGFACE_API_TOKEN := Some "hf_token";
                readFileSync := fun _ => Normal [];
                axiosPost := fun _ => GatewayError |} in
  fst (analyzeImageWithAI env "uploads/cat.png") = getMockAnalysisResults /\
  Forall (fun call => capabilityOf call = Caption)
    (snd (analyzeImageWithAI env "uploads/cat.png")).
Proof.
  intro env.
  apply (analyze_without_caption env "uploads/cat.png").
  intros j Hj. reflexivity.
Defined.

(** C10, as stated, fails when the caption that was found is not a string:
    [formatAltText] then throws and the mock result is returned. *)
Lemma analyze_numeric_caption_counterexample :
  let env := {| HUGGINGFACE_API_TOKEN := Some "hf_token";
                readFileSync := fun _ => Normal [];
                axiosPost := fun n =>
                  match n with
                  | 0 => Response (JArr [JObj [("generated_text", JNum 5)]])
                  | 5 => Response (JArr [JObj [("label", JStr "dog")]])
                  | _ => GatewayError
                  end |} in
  firstUsable Caption (axiosPost env) (models Caption) 0 0 (Text (JNum 5)) /\
  allUnusable Analysis (axiosPost env) (models Analysis) 1 /\
  firstUsable Classification (axiosPost env) (models Classification) 5 0
    (Labels ["dog"]) /\
  fst (analyzeImageWithAI env "uploads/dog.png") = getMockAnalysisResults /\
  caption (fst (analyzeImageWithAI env "uploads/dog.png"))
    <> "5. This image contains: dog.".
Proof.
  intro env. split; [|split; [|split; [|split]]].
  - split; [simpl; lia | split; [intros j Hj; lia | reflexivity]].
  - intros [|[|[|[|j]]]] Hj; try reflexivity. simpl in Hj. lia.
  - split; [simpl; lia | split; [intros j Hj; lia | reflexivity]].
  - reflexivity.
  - vm_compute. discriminate.
Qed.

(** C10, amended.  When the caption loop finds a string, the analysis loop
    finds nothing and the classification loop finds labels, the caption
    returned is that string followed by [". This image contains: "], the
    labels joined by [", "], and a final period. *)
Theorem analyze_caption_with_labels (env : Env) (imagePath : string)
  (imageBuffer : list byte) (k j : nat) (s : string) (labels : list string) :
  tokenConfigured (HUGGINGFACE_API_TOKEN env) = true ->
  readFileSync env imagePath = Normal imageBuffer ->
  firstUsable Caption (axiosPost env) (models Caption) 0 k (Text (JStr s)) ->
  allUnusable Analysis (axiosPost env) (models Analysis) (S k) ->
  firstUsable Classification (axiosPost env) (models Classification)
    (S k + List.length (models Analysis)) j (Labels labels) ->
  caption (fst (analyzeImageWithAI env imagePath))
    = s ++ ". This image contains: " ++ JsString.join ", " labels ++ ".".
Proof.
  intros Htoken Hfile Hcap Hana Hcls.
  set (net := axiosPost env) in *.
  set (st0 := {| results := initialResults; trace := [] |}).
  (* the caption loop *)
  destruct (tryModels_first_usable Caption net (models Caption) st0 k
              (Text (JStr s)) eq_refl Hcap) as (Ht1 & Hs1 & Hr1).
  set (st1 := tryModels Caption net (models Caption) st0) in *.
  cbn [succeeded] in Hs1. cbn [recorded] in Hr1.
  assert (Hlen1 : List.length (trace st1) = S k).
  { rewrite Ht1. cbn [trace st0 app].
    rewrite length_map, firstn_length_le; [reflexivity|].
    destruct Hcap as [Hk _]. lia. }
  destruct (tryModels_frame Caption Analysis net (models Caption) st0)
    as [Ha1 _]; [discriminate|].
  destruct (tryModels_frame Caption Classification net (models Caption) st0)
    as [Hc1 _]; [discriminate|].
  fold st1 in Ha1, Hc1.
  change (analysisSuccess (results st1) = false) in Ha1.
  change (classificationSuccess (results st1) = false) in Hc1.
  (* the analysis loop *)
  destruct (tryModels_exhausted Analysis net (models Analysis) st1) as
    (Ht2 & Hs2); [exact Ha1 | now rewrite Hlen1 |].
  set (st2 := tryModels Analysis net (models Analysis) st1) in *.
  assert (Hlen2 : List.length (trace st2)
                  = S k + List.length (models Analysis)).
  { rewrite Ht2, length_app, length_map, Hlen1. reflexivity. }
  destruct (tryModels_frame Analysis Classification net (models Analysis) st1)
    as [Hc2 _]; [discriminate|].
  destruct (tryModels_frame Analysis Caption net (models Analysis) st1)
    as [Hf2 Hx2]; [discriminate|].
  fold st2 in Hc2, Hf2, Hx2.
  cbn [succeeded recorded] in Hs2, Hc2, Hf2, Hx2.
  (* the classification loop *)
  destruct (tryModels_first_usable Classification net
              (models Classification) st2 j (Labels labels))
    as (_ & Hs3 & Hr3);
    [cbn [succeeded]; congruence | now rewrite Hlen2 |].
  destruct (tryModels_frame Classification Analysis net
              (models Classification) st2) as [Ha3 _]; [discriminate|].
  destruct (tryModels_frame Classification Caption net
              (models Classification) st2) as [Hf3 Hx3]; [discriminate|].
  set (st3 := tryModels Classification net (models Classification) st2) in *.
  cbn [succeeded recorded] in Hs3, Hr3, Ha3, Hf3, Hx3.
  (* the result *)
  unfold analyzeImageWithAI.
  rewrite Htoken, Hfile. cbn [negb].
  fold net. rewrite runModels_unfold. cbv zeta.
  fold st0 st1. rewrite Hs1. fold st2 st3.
  assert (Htext : captionText (results st3) = JStr s) by congruence.
  assert (Hlabels : classifications (results st3) = labels) by congruence.
  unfold buildResult.
  replace (captionSuccess (results st3)) with true by congruence.
  replace (analysisSuccess (results st3)) with false by congruence.
  rewrite Htext, Hs3, Hlabels. reflexivity.
Qed.

Lemma analyze_caption_with_labels_witness :
  let env := {| HUGGINGFACE_API_TOKEN := Some "hf_token";
                readFileSync := fun _ => Normal [];
                axiosPost := fun n =>
                  match n with
                  | 0 => Response (JArr [JObj [("generated_text",
                                                JStr "a dog")]])
                  | 5 => Response (JArr [JObj [("label", JStr "dog")];
                                         JObj [("label", JStr "grass")]])
                  | _ => GatewayError
                  end |} in
  caption (fst (analyzeImageWithAI env "uploads/dog.png"))
    = "a dog" ++ ". This image contains: "
        ++ JsString.join ", " ["dog"; "grass"] ++ ".".
Proof.
  intro env.
  apply (analyze_caption_with_labels env "uploads/dog.png" [] 0 0).
  - reflexivity.
  - reflexivity.
  - split; [simpl; lia | split; [intros j Hj; lia | reflexivity]].
  - intros [|[|[|[|j]]]] Hj; try reflexivity. simpl in Hj. lia.
  - split; [simpl; lia | split; [intros j Hj; lia | reflexivity]].
Defined.

(** ** Non-empty results *)

Lemma prefix_split (p d : string) :
  String.prefix p d = true ->
  d = p ++ JsString.sliceFrom (String.length p) d.
Proof.
  unfold JsString.sliceFrom.
  revert d. induction p as [|c p IH]; intros d H.
  - simpl. now rewrite Nat.sub_0_r, substring_all.
  - destruct d as [|c' d]; [discriminate|].
    simpl in H. destruct (ascii_dec c c') as [->|]; [|discriminate].
    simpl. f_equal. now apply IH.
Qed.

Lemma replacePrefix_empty (alternatives : list string) (d : string) :
  d <> "" ->
  JsString.replacePrefix alternatives d = "" ->
  In d alternatives.
Proof.
  intros Hd.
  induction alternatives as [|p rest IH]; simpl; intro H.
  - now elim Hd.
  - destruct (String.prefix p d) eqn:E.
    + left. apply prefix_split in E. rewrite H, append_empty_r in E.
      now symmetry.
    + right. now apply IH.
Qed.

Lemma append_nonempty (a b : string) : a <> "" -> a ++ b <> "".
Proof. destruct a; [intro H; now elim H | discriminate]. Qed.

(** [formatCaption] returns the empty string only for a detailed text that
    is nothing but one of the boilerplate prefixes. *)
Lemma formatCaption_empty (detailedText basicCaption labels : string) :
  basicCaption <> "" ->
  formatCaption detailedText basicCaption labels = "" ->
  In detailedText boilerplatePrefixes.
Proof.
  intros Hb. unfold formatCaption.
  destruct (JsString.truthy detailedText) eqn:Et; cbn [andb].
  - destruct (String.length basicCaption <? String.length detailedText)%nat.
    + apply replacePrefix_empty. now apply truthy_nonempty.
    + destruct (JsString.truthy labels && (0 <? String.length labels)%nat);
        intro H; [|now elim Hb].
      now apply append_nonempty in H.
  - destruct (JsString.truthy labels && (0 <? String.length labels)%nat);
      intro H; [|now elim Hb].
    now apply append_nonempty in H.
Qed.

(** And that detailed text is then longer than the basic caption. *)
Lemma formatCaption_empty_longer (detailedText basicCaption labels : string) :
  basicCaption <> "" ->
  formatCaption detailedText basicCaption labels = "" ->
  (String.length basicCaption < String.length detailedText)%nat.
Proof.
  intros Hb. unfold formatCaption.
  destruct (String.length basicCaption <? String.length detailedText)%nat
    eqn:El.
  - intros _. now apply Nat.ltb_lt.
  - rewrite andb_false_r.
    destruct (JsString.truthy labels && (0 <? String.length labels)%nat);
      intro H; [|now elim Hb].
    now apply append_nonempty in H.
Qed.

Lemma formatCaptionOf_empty (detailedText : json)
  (basicCaption labels : string) :
  basicCaption <> "" ->
  formatCaptionOf detailedText basicCaption labels = Normal "" ->
  exists p, In p boilerplatePrefixes /\ detailedText = JStr p /\
            (String.length basicCaption < String.length p)%nat.
Proof.
  intros Hb H.
  assert (Hno : formatCaption "" basicCaption labels <> "").
  { intro E. apply formatCaption_empty in E; [|exact Hb].
    simpl in E. intuition discriminate. }
  destruct detailedText as [|b|n|d|items|fields]; cbn [formatCaptionOf] in H.
  4: { exists d. injection H as H.
       split; [exact (formatCaption_empty d basicCaption labels Hb H)|].
       split; [reflexivity|].
       exact (formatCaption_empty_longer d basicCaption labels Hb H). }
  all: match type of H with
       | context [Js.truthy ?v] => destruct (Js.truthy v)
       end;
    [match type of H with
     | context [Js.lengthExceeds ?v ?n] =>
         destruct (Js.lengthExceeds v n) as [[|]|]
     end; cbn [bind] in H|];
    try discriminate H; injection H as H; now elim Hno.
Qed.

(** A text that is not blank has a first character for [formatAltText] to
    capitalise, so its alt text is not empty. *)
Lemma formatAltText_of_text (text : string) :
  strippedText text <> "" -> formatAltText text <> "".
Proof.
  unfold strippedText, formatAltText.
  destruct (if JsString.endsWith (JsString.trim text) "."
            then JsString.dropLast (JsString.trim text)
            else JsString.trim text) as [|c r]; [intro H; now elim H|].
  intros _. rewrite capitalised_cons.
  destruct (125 <? _)%nat; [|discriminate].
  intro H. apply (f_equal String.length) in H.
  rewrite length_append in H. simpl in H. lia.
Qed.

Lemma buildResult_fields (r : Results) (result : AnalysisResult) :
  captionRecorded r ->
  buildResult r = Normal result ->
  result = getMockAnalysisResults \/
  exists s,
    captionText r = JStr s /\
    (strippedText s <> "" -> altText result <> "") /\
    (caption result = "" ->
     exists p, In p boilerplatePrefixes /\ analysisText r = JStr p /\
               (String.length s < String.length p)%nat).
Proof.
  intros Hrec. unfold buildResult.
  destruct (captionSuccess r) eqn:Hs; cbn [negb].
  2: { intro H; injection H as <-. now left. }
  specialize (Hrec Hs).
  destruct (captionText r) as [|b|n|s|items|fields];
    cbn [formatAltTextOf bind]; try discriminate.
  assert (Hne : s <> "") by now apply truthy_nonempty.
  intro H. right. exists s. split; [reflexivity|].
  destruct (analysisSuccess r && Js.truthy (analysisText r)).
  - destruct (formatCaptionOf (analysisText r) s _) as [c|] eqn:Ec;
      cbn [bind] in H; [|discriminate].
    injection H as <-. cbn [altText caption].
    split; [apply formatAltText_of_text|].
    intros ->. eapply formatCaptionOf_empty; eassumption.
  - destruct (classificationSuccess r); cbn [bind] in H;
      injection H as <-; cbn [altText caption];
      (split; [apply formatAltText_of_text|]); intro E.
    + now apply append_nonempty in E.
    + now elim Hne.
Qed.

(** C5, as stated, fails: an analysis text that is only a boilerplate
    prefix, and longer than the caption, is stripped to the empty string,
    which becomes the caption. *)
Lemma analyze_empty_caption_counterexample :
  let env := {| HUGGINGFACE_API_TOKEN := Some "hf_token";
                readFileSync := fun _ => Normal [];
                axiosPost := fun n =>
                  match n with
                  | 0 => Response (JArr [JObj [("generated_text",
                                                JStr "a dog")]])
                  | 1 => Response (JArr [JObj [("generated_text",
                                                JStr "Description: ")]])
                  | _ => GatewayError
                  end |} in
  fst (analyzeImageWithAI env "uploads/dog.png")
    = {| altText := "A  dog"; caption := "" |}.
Proof. reflexivity. Qed.

(** C5, amended.  Every result of [analyzeImageWithAI] is either the mock
    result, whose [altText] and [caption] are both non-empty, or built from
    a caption text that is a string; its [altText] is then non-empty
    whenever that text has a character left after it is trimmed and loses
    one trailing period, and its [caption] is non-empty unless the analysis
    text that was found is exactly one of the boilerplate prefixes
    ["Caption: "], ["Description: "] and ["Image shows: "] and is longer
    than the caption text. *)
Theorem analyze_result_nonempty (env : Env) (imagePath : string) :
  let result := fst (analyzeImageWithAI env imagePath) in
  let r := results (runModels (axiosPost env)) in
  (result = getMockAnalysisResults /\
   altText result <> "" /\ caption result <> "") \/
  exists s,
    captionText r = JStr s /\
    (strippedText s <> "" -> altText result <> "") /\
    (caption result = "" ->
     exists p, In p boilerplatePrefixes /\ analysisText r = JStr p /\
               (String.length s < String.length p)%nat).
Proof.
  cbv zeta.
  assert (Hmock : forall result, result = getMockAnalysisResults ->
            result = getMockAnalysisResults /\
            altText result <> "" /\ caption result <> "").
  { intros result ->. repeat split; discriminate. }
  unfold analyzeImageWithAI.
  destruct (tokenConfigured (HUGGINGFACE_API_TOKEN env)); cbn [negb fst];
    [|left; now apply Hmock].
  destruct (readFileSync env imagePath) as [imageBuffer|]; cbn [fst];
    [|left; now apply Hmock].
  destruct (buildResult (results (runModels (axiosPost env))))
    as [result|] eqn:E; cbn [fst]; [|left; now apply Hmock].
  destruct (buildResult_fields _ result
              (runModels_captionRecorded (axiosPost env)) E) as [->|H].
  - left; now apply Hmock.
  - right; exact H.
Qed.

Lemma analyze_result_nonempty_witness :
  let env := {| HUGGINGFACE_API_TOKEN := Some "hf_token";
                readFileSync := fun _ => Normal [];
                axiosPost := fun n =>
                  match n with
                  | 0 => Response (JStr "a dog")
                  | 1 => Response (JStr "Image shows: ")
                  | _ => GatewayError
                  end |} in
  altText (fst (analyzeImageWithAI env "uploads/dog.png")) <> "" /\
  exists p, In p boilerplatePrefixes /\
            analysisText (results (runModels (axiosPost env))) = JStr p /\
            (String.length "a dog" < String.length p)%nat.
Proof.
  intro env.
  destruct (analyze_result_nonempty env "uploads/dog.png")
    as [[Hmock _]|(s & Hs & Halt & Hcap)].
  - vm_compute in Hmock. discriminate Hmock.
  - vm_compute in Hs. injection Hs as <-.
    split; [apply Halt; vm_compute; discriminate | apply Hcap; reflexivity].
Defined.


(** * Further properties of the service *)

(** ** formatAltText on every input *)

(** X1.  The alt text never exceeds 125 characters. *)
Theorem formatAltText_length_bound (text : string) :
  String.length (formatAltText text) <= 125.
Proof.
  unfold formatAltText.
  set (a := if JsString.endsWith _ "." then _ else _).
  set (b := JsString.toUpperCase (JsString.charAt 0 a) ++ " "
              ++ JsString.sliceFrom 1 a).
  destruct (125 <? String.length b)%nat eqn:E.
  - apply Nat.ltb_lt in E.
    rewrite length_append. unfold JsString.substringTo.
    rewrite length_substring by lia. simpl. lia.
  - now apply Nat.ltb_ge in E.
Qed.

Lemma length_rev (s : string) :
  String.length (JsString.rev s) = String.length s.
Proof.
  induction s as [|c s IH]; simpl; [reflexivity|].
  rewrite length_append, IH. simpl. lia.
Qed.

Lemma rev_involutive (s : string) : JsString.rev (JsString.rev s) = s.
Proof.
  induction s as [|c s IH]; simpl; [reflexivity|].
  rewrite rev_append, IH. reflexivity.
Qed.

Lemma allWhiteSpace_append (a b : string) :
  allWhiteSpace (a ++ b) = allWhiteSpace a && allWhiteSpace b.
Proof.
  induction a as [|c a IH]; simpl; [reflexivity|].
  now rewrite IH, andb_assoc.
Qed.

Lemma allWhiteSpace_rev (s : string) :
  allWhiteSpace (JsString.rev s) = allWhiteSpace s.
Proof.
  induction s as [|c s IH]; simpl; [reflexivity|].
  rewrite allWhiteSpace_append, IH. simpl.
  rewrite andb_true_r. apply andb_comm.
Qed.

(** [trimStart] drops a white prefix and nothing else. *)
Lemma trimStart_append (a b : string) :
  JsString.trimStart (a ++ b)
  = if allWhiteSpace a then JsString.trimStart b
    else JsString.trimStart a ++ b.
Proof.
  induction a as [|c a IH]; simpl; [reflexivity|].
  destruct (JsString.isWhiteSpace c); simpl; [exact IH | reflexivity].
Qed.

Lemma trimStart_white (s : string) :
  allWhiteSpace s = true -> JsString.trimStart s = "".
Proof.
  induction s as [|c s IH]; simpl; [reflexivity|].
  destruct (JsString.isWhiteSpace c); simpl; [exact IH | discriminate].
Qed.

Lemma trimEnd_append_white (s pad : string) :
  allWhiteSpace pad = true ->
  JsString.trimEnd (s ++ pad) = JsString.trimEnd s.
Proof.
  intro H. unfold JsString.trimEnd.
  rewrite rev_append, trimStart_append, allWhiteSpace_rev, H.
  reflexivity.
Qed.

Lemma trim_padding (left text right : string) :
  allWhiteSpace left = true ->
  allWhiteSpace right = true ->
  JsString.trim (left ++ text ++ right) = JsString.trim text.
Proof.
  intros Hl Hr. unfold JsString.trim.
  rewrite trimStart_append, Hl, trimStart_append.
  destruct (allWhiteSpace text) eqn:E.
  - now rewrite (trimStart_white right Hr), (trimStart_white text E).
  - now apply trimEnd_append_white.
Qed.

(** X2.  White space around the text does not change the alt text. *)
Theorem formatAltText_ignores_padding (left text right : string) :
  allWhiteSpace left = true ->
  allWhiteSpace right = true ->
  formatAltText (left ++ text ++ right) = formatAltText text.
Proof.
  intros Hl Hr. unfold formatAltText.
  now rewrite (trim_padding left text right Hl Hr).
Qed.

Lemma formatAltText_ignores_padding_witness :
  formatAltText ("  " ++ "a dog" ++ String "010" " ") = formatAltText "a dog".
Proof.
  apply (formatAltText_ignores_padding "  " "a dog" (String "010" " "));
    reflexivity.
Defined.

Lemma length_trimStart (s : string) :
  String.length (JsString.trimStart s) <= String.length s.
Proof.
  induction s as [|c s IH]; simpl; [lia|].
  destruct (JsString.isWhiteSpace c); simpl; lia.
Qed.

Lemma length_trimEnd (s : string) :
  String.length (JsString.trimEnd s) <= String.length s.
Proof.
  unfold JsString.trimEnd. rewrite length_rev.
  etransitivity; [apply length_trimStart|]. now rewrite length_rev.
Qed.

(** A string that [trim] leaves alone has no white space in front. *)
Lemma trim_fixed_trimStart (s : string) :
  JsString.trim s = s -> JsString.trimStart s = s.
Proof.
  intro H.
  assert (Hlen : String.length s <= String.length (JsString.trimStart s)).
  { rewrite <- H at 1. apply length_trimEnd. }
  destruct s as [|c r]; [reflexivity|].
  simpl in *. destruct (JsString.isWhiteSpace c); [|reflexivity].
  pose proof (length_trimStart r). lia.
Qed.

Lemma trimEnd_period (s : string) :
  JsString.trimEnd (s ++ ".") = s ++ ".".
Proof.
  unfold JsString.trimEnd. rewrite rev_append. simpl.
  now rewrite rev_involutive.
Qed.

Lemma substring_append_left (a b : string) :
  String.substring 0 (String.length a) (a ++ b) = a.
Proof.
  induction a as [|c a IH]; simpl.
  - now destruct b.
  - now rewrite IH.
Qed.

Lemma dropLast_append_char (s : string) (c : ascii) :
  JsString.dropLast (s ++ String c "") = s.
Proof.
  unfold JsString.dropLast. rewrite length_append. simpl.
  replace (String.length s + 1 - 1) with (String.length s) by lia.
  apply substring_append_left.
Qed.

(** X3.  One trailing period is dropped: a text without surrounding white
    space that does not end in a period gives the same alt text with a
    period appended. *)
Theorem formatAltText_drops_one_period (s : string) :
  JsString.trim s = s ->
  JsString.endsWith s "." = false ->
  formatAltText (s ++ ".") = formatAltText s.
Proof.
  intros Htrim Hends.
  assert (Hdot : JsString.trim (s ++ ".") = s ++ ".").
  { unfold JsString.trim. rewrite trimStart_append.
    pose proof (trim_fixed_trimStart s Htrim) as Hstart.
    destruct (allWhiteSpace s) eqn:E.
    - rewrite (trimStart_white s E) in Hstart. subst s. reflexivity.
    - rewrite Hstart. apply trimEnd_period. }
  unfold formatAltText.
  rewrite Hdot, endsWith_append, dropLast_append_char, Htrim, Hends.
  reflexivity.
Qed.

Lemma formatAltText_drops_one_period_witness :
  formatAltText ("a dog on the grass" ++ ".")
    = formatAltText "a dog on the grass".
Proof.
  apply (formatAltText_drops_one_period "a dog on the grass"); reflexivity.
Defined.

(** ** formatCaption *)

(** X4.  A detailed text that is longer than the basic caption and starts
    with a boilerplate prefix is returned without that prefix; the basic
    caption and the labels are left out. *)
Theorem formatCaption_strips_boilerplate
  (p rest basicCaption labels : string) :
  In p boilerplatePrefixes ->
  (String.length basicCaption < String.length (p ++ rest))%nat ->
  formatCaption (p ++ rest) basicCaption labels = rest.
Proof.
  intros Hp Hlen. unfold formatCaption.
  apply Nat.ltb_lt in Hlen. rewrite Hlen.
  assert (Hrest : String.substring 0 (String.length rest - 0) rest = rest)
    by now rewrite Nat.sub_0_r, substring_all.
  assert (Hnil : String.prefix "" rest = true) by now destruct rest.
  simpl in Hp.
  destruct Hp as [<-|[<-|[<-|[]]]]; simpl; rewrite Hnil;
    unfold JsString.sliceFrom; simpl; exact Hrest.
Qed.

Lemma formatCaption_strips_boilerplate_witness :
  formatCaption ("Caption: " ++ "a dog running") "a dog" "animal"
    = "a dog running".
Proof.
  apply (formatCaption_strips_boilerplate "Caption: " "a dog running"
           "a dog" "animal").
  - simpl. tauto.
  - simpl. lia.
Defined.

(** ** Response shapes *)

(** X5.  [extractText] accepts exactly three shapes, and only with a truthy
    text: an array whose first element is an object with that
    [generated_text], an object with that [generated_text], and a string,
    which is its own text.  Everything else is an unexpected format. *)
Theorem extractText_accepts (data text : json) :
  extractText data = Some text <->
  Js.truthy text = true /\
  ((exists fields rest,
      data = JArr (JObj fields :: rest) /\
      Js.lookup "generated_text" fields = Some text) \/
   (exists fields,
      data = JObj fields /\
      Js.lookup "generated_text" fields = Some text) \/
   data = text /\ exists s, text = JStr s).
Proof.
  split.
  - intro H. split; [eapply extractText_truthy; exact H|].
    unfold extractText in H.
    destruct data as [|b|n|s|items|fields]; simpl in H.
    + discriminate.
    + destruct b; discriminate.
    + destruct (negb (n =? 0)%Z); discriminate.
    + destruct (JsString.truthy s); [|discriminate].
      injection H as <-. right; right. split; [reflexivity | now exists s].
    + destruct items as [|first rest]; simpl in H; [discriminate|].
      destruct first as [| | | | |fields]; simpl in H; try discriminate.
      destruct (Js.lookup "generated_text" fields) as [t|] eqn:E;
        simpl in H; [|discriminate].
      destruct (Js.truthy t); [|discriminate].
      injection H as <-. left. now exists fields, rest.
    + destruct (Js.lookup "generated_text" fields) as [t|] eqn:E;
        simpl in H; [|discriminate].
      destruct (Js.truthy t); [|discriminate].
      injection H as <-. right; left. now exists fields.
  - intros [Ht [(fields & rest & -> & Hf)|[(fields & -> & Hf)|
                                           [-> (s & ->)]]]];
      unfold extractText; simpl; rewrite ?Hf; simpl; rewrite ?Ht; simpl;
      try reflexivity.
    simpl in Ht. now rewrite Ht.
Qed.

(** ** What the three loops leave in [results] *)

Lemma results_ext (r r' : Results) :
  (forall cap, succeeded cap r = succeeded cap r') ->
  (forall cap, recorded cap r = recorded cap r') ->
  r = r'.
Proof.
  intros Hs Hr. destruct r, r'.
  pose proof (Hs Caption) as H1. pose proof (Hs Analysis) as H2.
  pose proof (Hs Classification) as H3.
  pose proof (Hr Caption) as H4. pose proof (Hr Analysis) as H5.
  pose proof (Hr Classification) as H6.
  simpl in *. congruence.
Qed.

Lemma capability_eq_dec (a b : capability) : {a = b} + {a <> b}.
Proof. decide equality. Qed.

Lemma handleResponse_unsetIsInitial (cap : capability) (data : json)
  (r : Results) :
  unsetIsInitial r -> unsetIsInitial (handleResponse cap data r).
Proof.
  intros H other Hflag.
  destruct (capability_eq_dec cap other) as [<-|Hneq].
  - unfold handleResponse in *. destruct cap.
    + destruct (extractText data); [discriminate | now apply H].
    + destruct (extractText data); [discriminate | now apply H].
    + destruct (extractLabels data) as [[[|l ls]|]|];
        [reflexivity | discriminate Hflag | now apply H | now apply H].
  - destruct (handleResponse_frame cap other data r Hneq) as [Hs Hr].
    rewrite Hr. apply H. now rewrite <- Hs.
Qed.

Lemma tryModels_unsetIsInitial (cap : capability) (net : network)
  (providers : list string) (st : State) :
  unsetIsInitial (results st) ->
  unsetIsInitial (results (tryModels cap net providers st)).
Proof.
  apply tryModels_invariant.
  intros; now apply handleResponse_unsetIsInitial.
Qed.

(** Every loop comes to one of the two ends. *)
Lemma usable_or_not (cap : capability) (net : network)
  (providers : list string) :
  forall start,
  allUnusable cap net providers start \/
  exists k v, firstUsable cap net providers start k v.
Proof.
  induction providers as [|model rest IH]; intro start.
  - left. intros j Hj. simpl in Hj. lia.
  - destruct (normalize cap (net start)) as [v|] eqn:E.
    + right. exists 0, v. split; [simpl; lia|]. split.
      * intros j Hj. lia.
      * now rewrite Nat.add_0_r.
    + destruct (IH (S start)) as [Hall|(k & v & Hk & Hbefore & Hat)].
      * left. intros [|j] Hj.
        -- now rewrite Nat.add_0_r.
        -- replace (start + S j) with (S start + j) by lia.
           apply Hall. simpl in Hj. lia.
      * right. exists (S k), v. split; [simpl; lia|]. split.
        -- intros [|j] Hj.
           ++ now rewrite Nat.add_0_r.
           ++ replace (start + S j) with (S start + j) by lia.
              apply Hbefore. lia.
        -- replace (start + S k) with (S start + k) by lia. exact Hat.
Qed.

Lemma finds_total (cap : capability) (net : network) (start : nat) :
  exists f, finds cap net start f.
Proof.
  destruct (usable_or_not cap net (models cap) start) as [H|(k & v & H)].
  - now exists NotFound.
  - now exists (FoundAt k v).
Qed.

Lemma callsMade_le (cap : capability) (net : network) (start : nat)
  (f : found) :
  finds cap net start f ->
  1 <= callsMade cap f <= List.length (models cap).
Proof.
  destruct f as [|k v]; simpl.
  - intros _. destruct cap; simpl; lia.
  - intros [Hk _]. lia.
Qed.

Lemma length_attempts (cap : capability) (n : nat) :
  n <= List.length (models cap) -> List.length (attempts cap n) = n.
Proof.
  intro H. unfold attempts.
  now rewrite length_map, firstn_length_le.
Qed.

(** One loop, whichever way it ends. *)
Lemma tryModels_finds (cap : capability) (net : network) (st : State)
  (f : found) :
  succeeded cap (results st) = false ->
  unsetIsInitial (results st) ->
  finds cap net (List.length (trace st)) f ->
  let st' := tryModels cap net (models cap) st in
  trace st' = (trace st ++ attempts cap (callsMade cap f))%list /\
  succeeded cap (results st') = flagOf f /\
  recorded cap (results st') = recordOf cap f.
Proof.
  intros Hflag Hinit Hf.
  destruct f as [|k v]; cbn [finds callsMade flagOf recordOf] in *.
  - destruct (tryModels_exhausted cap net (models cap) st Hflag Hf)
      as [Ht Hs].
    cbv zeta. split; [|split; [exact Hs|]].
    + rewrite Ht. unfold attempts. now rewrite firstn_all.
    + now apply tryModels_unsetIsInitial.
  - exact (tryModels_first_usable cap net (models cap) st k v Hflag Hf).
Qed.

(** The whole of [runModels] after a caption was found. *)
Lemma runModels_scenario (net : network) (k : nat) (v : normalized)
  (fa fl : found) :
  finds Caption net 0 (FoundAt k v) ->
  finds Analysis net (S k) fa ->
  finds Classification net (S k + callsMade Analysis fa) fl ->
  let st := runModels net in
  trace st = (attempts Caption (S k) ++ attempts Analysis (callsMade Analysis fa)
                ++ attempts Classification (callsMade Classification fl))%list /\
  captionSuccess (results st) = true /\
  recorded Caption (results st) = v /\
  analysisSuccess (results st) = flagOf fa /\
  recorded Analysis (results st) = recordOf Analysis fa /\
  classificationSuccess (results st) = flagOf fl /\
  recorded Classification (results st) = recordOf Classification fl.
Proof.
  intros Hc Ha Hl.
  set (st0 := {| results := initialResults; trace := [] |}).
  assert (Hinit0 : unsetIsInitial (results st0)) by (intros cap _; reflexivity).
  (* caption *)
  destruct (tryModels_finds Caption net st0 (FoundAt k v) eq_refl Hinit0 Hc)
    as (Ht1 & Hs1 & Hr1).
  destruct (tryModels_frame Caption Analysis net (models Caption) st0)
    as [Hsa1 Hra1]; [discriminate|].
  destruct (tryModels_frame Caption Classification net (models Caption) st0)
    as [Hsl1 Hrl1]; [discriminate|].
  pose proof (tryModels_unsetIsInitial Caption net (models Caption) st0 Hinit0)
    as Hinit1.
  set (st1 := tryModels Caption net (models Caption) st0) in *.
  cbn [callsMade flagOf recordOf] in Ht1, Hs1, Hr1.
  assert (Hlen1 : List.length (trace st1) = S k).
  { rewrite Ht1. cbn [trace st0 app]. apply length_attempts.
    destruct Hc as [Hk _]. lia. }
  (* analysis *)
  destruct (tryModels_finds Analysis net st1 fa) as (Ht2 & Hs2 & Hr2);
    [exact Hsa1 | exact Hinit1 | now rewrite Hlen1 |].
  destruct (tryModels_frame Analysis Caption net (models Analysis) st1)
    as [Hsc2 Hrc2]; [discriminate|].
  destruct (tryModels_frame Analysis Classification net (models Analysis) st1)
    as [Hsl2 Hrl2]; [discriminate|].
  pose proof (tryModels_unsetIsInitial Analysis net (models Analysis) st1 Hinit1)
    as Hinit2.
  set (st2 := tryModels Analysis net (models Analysis) st1) in *.
  assert (Hlen2 : List.length (trace st2) = S k + callsMade Analysis fa).
  { rewrite Ht2, length_app, Hlen1. f_equal. apply length_attempts.
    now apply (callsMade_le Analysis net (S k)). }
  (* classification *)
  destruct (tryModels_finds Classification net st2 fl) as (Ht3 & Hs3 & Hr3);
    [now rewrite Hsl2 | exact Hinit2 | now rewrite Hlen2 |].
  destruct (tryModels_frame Classification Caption net
              (models Classification) st2) as [Hsc3 Hrc3]; [discriminate|].
  destruct (tryModels_frame Classification Analysis net
              (models Classification) st2) as [Hsa3 Hra3]; [discriminate|].
  set (st3 := tryModels Classification net (models Classification) st2) in *.
  (* together *)
  rewrite runModels_unfold. cbv zeta. fold st0 st1.
  cbn [succeeded] in *. rewrite Hs1. fold st2 st3.
  repeat match goal with |- _ /\ _ => split end; try congruence.
  rewrite Ht3, Ht2, Ht1. cbn [trace st0 app].
  now rewrite app_assoc.
Qed.

(** [runModels] when the caption loop finds nothing. *)
Lemma runModels_no_caption (net : network) :
  finds Caption net 0 NotFound ->
  trace (runModels net) = attempts Caption (List.length (models Caption)) /\
  captionSuccess (results (runModels net)) = false.
Proof.
  intro Hc.
  set (st0 := {| results := initialResults; trace := [] |}).
  destruct (tryModels_finds Caption net st0 NotFound eq_refl) as (Ht & Hs & _);
    [intros cap _; reflexivity | exact Hc |].
  rewrite runModels_unfold. cbv zeta. fold st0.
  cbn [succeeded flagOf callsMade] in *. rewrite Hs.
  split; [exact Ht | exact Hs].
Qed.

(** ** Calls made by analyzeImageWithAI *)

Lemma analyze_unfold (env : Env) (imagePath : string)
  (imageBuffer : list byte) :
  tokenConfigured (HUGGINGFACE_API_TOKEN env) = true ->
  readFileSync env imagePath = Normal imageBuffer ->
  analyzeImageWithAI env imagePath
  = (match buildResult (results (runModels (axiosPost env))) with
     | Normal result => result
     | Throw _ => getMockAnalysisResults
     end,
     trace (runModels (axiosPost env))).
Proof.
  intros Htoken Hfile. unfold analyzeImageWithAI.
  rewrite Htoken, Hfile. cbn [negb].
  now destruct (buildResult _).
Qed.

Lemma runModels_trace (net : network) :
  exists a b c,
    1 <= a <= 4 /\ b <= 4 /\ c <= 3 /\
    trace (runModels net)
    = (attempts Caption a ++ attempts Analysis b
         ++ attempts Classification c)%list.
Proof.
  destruct (finds_total Caption net 0) as [[|k v] Hc].
  - destruct (runModels_no_caption net Hc) as [Ht _].
    exists 4, 0, 0. repeat split; try lia.
    rewrite Ht. reflexivity.
  - destruct (finds_total Analysis net (S k)) as [fa Ha].
    destruct (finds_total Classification net (S k + callsMade Analysis fa))
      as [fl Hl].
    destruct (runModels_scenario net k v fa fl Hc Ha Hl) as (Ht & _).
    exists (S k), (callsMade Analysis fa), (callsMade Classification fl).
    pose proof (callsMade_le Caption net 0 _ Hc) as H1.
    pose proof (callsMade_le Analysis net _ _ Ha) as H2.
    pose proof (callsMade_le Classification net _ _ Hl) as H3.
    simpl in H1, H2, H3. repeat split; try lia. exact Ht.
Qed.

(** X6.  The calls of a run come in a fixed order: caption attempts, then
    analysis attempts, then classification attempts, each list taken from
    its start without a gap or a repeat.  A run makes at most 11 calls. *)
Theorem analyze_calls_in_order (env : Env) (imagePath : string) :
  exists a b c,
    a <= 4 /\ b <= 4 /\ c <= 3 /\
    snd (analyzeImageWithAI env imagePath)
    = (attempts Caption a ++ attempts Analysis b
         ++ attempts Classification c)%list /\
    List.length (snd (analyzeImageWithAI env imagePath)) = a + b + c.
Proof.
  assert (Hnone : exists a b c,
    a <= 4 /\ b <= 4 /\ c <= 3 /\
    @nil attempt = (attempts Caption a ++ attempts Analysis b
                      ++ attempts Classification c)%list /\
    List.length (@nil attempt) = a + b + c).
  { exists 0, 0, 0. repeat split; lia. }
  unfold analyzeImageWithAI.
  destruct (tokenConfigured (HUGGINGFACE_API_TOKEN env)); cbn [negb snd];
    [|exact Hnone].
  destruct (readFileSync env imagePath) as [imageBuffer|]; cbn [snd];
    [|exact Hnone].
  destruct (runModels_trace (axiosPost env))
    as (a & b & c & Ha & Hb & Hc & Ht).
  exists a, b, c.
  destruct (buildResult _); cbn [snd]; rewrite Ht;
    (repeat split; try lia);
    rewrite !length_app, !length_attempts; simpl; lia.
Qed.

(** X7.  A run calls no provider exactly when the token is missing or empty
    or the image cannot be read; in every other run the first call is the
    caption attempt on the first model of the caption list. *)
Theorem analyze_calls_iff (env : Env) (imagePath : string) :
  (snd (analyzeImageWithAI env imagePath) = [] <->
   tokenConfigured (HUGGINGFACE_API_TOKEN env) = false \/
   exists e, readFileSync env imagePath = Throw e) /\
  (tokenConfigured (HUGGINGFACE_API_TOKEN env) = true ->
   forall imageBuffer, readFileSync env imagePath = Normal imageBuffer ->
   exists rest,
     snd (analyzeImageWithAI env imagePath)
     = mkAttempt Caption "Salesforce/blip-image-captioning-large" :: rest).
Proof.
  assert (Hfirst : exists rest,
            trace (runModels (axiosPost env))
            = mkAttempt Caption "Salesforce/blip-image-captioning-large"
                :: rest).
  { destruct (runModels_trace (axiosPost env))
      as (a & b & c & Ha & Hb & Hc & Ht).
    destruct a as [|a]; [lia|].
    rewrite Ht. unfold attempts at 1. cbn [models firstn map app].
    eexists. reflexivity. }
  destruct Hfirst as [rest Hrest].
  split.
  - unfold analyzeImageWithAI.
    destruct (tokenConfigured (HUGGINGFACE_API_TOKEN env)); cbn [negb snd].
    2: { split; [now left | reflexivity]. }
    destruct (readFileSync env imagePath) as [imageBuffer|e]; cbn [snd].
    2: { split; [right; now exists e | reflexivity]. }
    destruct (buildResult _); cbn [snd]; rewrite Hrest;
      (split; [discriminate | intros [H|[e' H]]; discriminate H]).
  - intros Htoken imageBuffer Hfile.
    rewrite (analyze_unfold env imagePath imageBuffer Htoken Hfile).
    cbn [snd]. now exists rest.
Qed.

Lemma analyze_calls_iff_witness :
  let env := {| HUGGINGFACE_API_TOKEN := Some "hf_token";
                readFileSync := fun _ => Normal [];
                axiosPost := fun _ => Response (JStr "a dog") |} in
  exists rest,
    snd (analyzeImageWithAI env "uploads/dog.png")
    = mkAttempt Caption "Salesforce/blip-image-captioning-large" :: rest.
Proof.
  intro env.
  apply (proj2 (analyze_calls_iff env "uploads/dog.png") eq_refl []).
  reflexivity.
Defined.

(** ** Results of analyzeImageWithAI *)

(** X8.  With a string caption and nothing else found, the result is the
    formatted caption as alt text and the caption itself as caption, after
    every analysis and classification model was tried. *)
Theorem analyze_caption_only (env : Env) (imagePath : string)
  (imageBuffer : list byte) (k : nat) (s : string) :
  tokenConfigured (HUGGINGFACE_API_TOKEN env) = true ->
  readFileSync env imagePath = Normal imageBuffer ->
  firstUsable Caption (axiosPost env) (models Caption) 0 k (Text (JStr s)) ->
  allUnusable Analysis (axiosPost env) (models Analysis) (S k) ->
  allUnusable Classification (axiosPost env) (models Classification)
    (S k + 4) ->
  analyzeImageWithAI env imagePath
  = ({| altText := formatAltText s; caption := s |},
     (attempts Caption (S k) ++ attempts Analysis 4
        ++ attempts Classification 3)%list).
Proof.
  intros Htoken Hfile Hc Ha Hl.
  rewrite (analyze_unfold env imagePath imageBuffer Htoken Hfile).
  destruct (runModels_scenario (axiosPost env) k (Text (JStr s))
              NotFound NotFound Hc Ha Hl)
    as (Ht & Hs1 & Hr1 & Hs2 & _ & Hs3 & _).
  cbn [recorded flagOf callsMade models List.length] in *.
  injection Hr1 as Hr1.
  unfold buildResult. rewrite Hs1, Hr1, Hs2, Hs3, Ht. reflexivity.
Qed.

Lemma analyze_caption_only_witness :
  let env := {| HUGGINGFACE_API_TOKEN := Some "hf_token";
                readFileSync := fun _ => Normal [];
                axiosPost := fun n =>
                  match n with
                  | 1 => Response (JStr "a dog")
                  | _ => GatewayError
                  end |} in
  analyzeImageWithAI env "uploads/dog.png"
  = ({| altText := formatAltText "a dog"; caption := "a dog" |},
     (attempts Caption 2 ++ attempts Analysis 4
        ++ attempts Classification 3)%list).
Proof.
  intro env.
  apply (analyze_caption_only env "uploads/dog.png" [] 1 "a dog").
  - reflexivity.
  - reflexivity.
  - split; [simpl; lia|]. split; [|reflexivity].
    intros [|j] Hj; [reflexivity | lia].
  - intros [|[|[|[|j]]]] Hj; reflexivity.
  - intros [|[|[|j]]] Hj; reflexivity.
Defined.

Lemma normalize_text_truthy (cap : capability) (reply : outcome)
  (text : json) :
  normalize cap reply = Some (Text text) -> Js.truthy text = true.
Proof.
  destruct reply as [|data]; [discriminate|]. unfold normalize.
  destruct cap.
  - destruct (extractText data) as [t|] eqn:E; [|discriminate].
    intro H; injection H as <-. exact (extractText_truthy _ _ E).
  - destruct (extractText data) as [t|] eqn:E; [|discriminate].
    intro H; injection H as <-. exact (extractText_truthy _ _ E).
  - destruct (extractLabels data) as [[[|l ls]|]|]; discriminate.
Qed.

Lemma normalize_classification_labels (reply : outcome) (v : normalized) :
  normalize Classification reply = Some v -> exists labels, v = Labels labels.
Proof.
  destruct reply as [|data]; [discriminate|]. unfold normalize.
  destruct (extractLabels data) as [[[|l ls]|]|]; try discriminate.
  intro H; injection H as <-. now eexists.
Qed.

Lemma analyze_text_and_analysis (env : Env) (imagePath : string)
  (imageBuffer : list byte) (k j : nat) (s d : string)
  (fl : found) (labels : list string) :
  tokenConfigured (HUGGINGFACE_API_TOKEN env) = true ->
  readFileSync env imagePath = Normal imageBuffer ->
  firstUsable Caption (axiosPost env) (models Caption) 0 k (Text (JStr s)) ->
  firstUsable Analysis (axiosPost env) (models Analysis) (S k) j
    (Text (JStr d)) ->
  finds Classification (axiosPost env) (S k + S j) fl ->
  recordOf Classification fl = Labels labels ->
  fst (analyzeImageWithAI env imagePath)
  = {| altText := formatAltText s;
       caption := formatCaption d s (JsString.join ", " labels) |}.
Proof.
  intros Htoken Hfile Hc Ha Hl Hlabels.
  rewrite (analyze_unfold env imagePath imageBuffer Htoken Hfile).
  destruct (runModels_scenario (axiosPost env) k (Text (JStr s))
              (FoundAt j (Text (JStr d))) fl Hc Ha Hl)
    as (_ & Hs1 & Hr1 & Hs2 & Hr2 & _ & Hr3).
  cbn [recorded flagOf recordOf fst] in *.
  injection Hr1 as Hr1. injection Hr2 as Hr2.
  assert (Hr3' : classifications (results (runModels (axiosPost env)))
                 = labels) by congruence.
  assert (Htruthy : JsString.truthy d = true).
  { destruct Ha as (_ & _ & Hat).
    exact (normalize_text_truthy _ _ _ Hat). }
  unfold buildResult. rewrite Hs1, Hr1, Hs2, Hr2, Hr3'.
  cbn [negb formatAltTextOf bind Js.truthy formatCaptionOf andb].
  rewrite Htruthy. reflexivity.
Qed.

(** X9.  With a string caption and a string analysis text, the caption is
    [formatCaption] of the two and of the labels joined by [", "], the
    labels being those of the first usable classification response, or
    none. *)
Theorem analyze_with_analysis (env : Env) (imagePath : string)
  (imageBuffer : list byte) (k j : nat) (s d : string)
  (fl : found) (labels : list string) :
  tokenConfigured (HUGGINGFACE_API_TOKEN env) = true ->
  readFileSync env imagePath = Normal imageBuffer ->
  firstUsable Caption (axiosPost env) (models Caption) 0 k (Text (JStr s)) ->
  firstUsable Analysis (axiosPost env) (models Analysis) (S k) j
    (Text (JStr d)) ->
  finds Classification (axiosPost env) (S k + S j) fl ->
  recordOf Classification fl = Labels labels ->
  fst (analyzeImageWithAI env imagePath)
  = {| altText := formatAltText s;
       caption := formatCaption d s (JsString.join ", " labels) |}.
Proof.
  exact (analyze_text_and_analysis env imagePath imageBuffer k j s d fl
           labels).
Qed.

Lemma analyze_with_analysis_witness :
  let env := {| HUGGINGFACE_API_TOKEN := Some "hf_token";
                readFileSync := fun _ => Normal [];
                axiosPost := fun n =>
                  match n with
                  | 0 => Response (JStr "a dog")
                  | 1 => Response (JStr "a dog")
                  | 2 => Response (JArr [JObj [("label", JStr "dog")];
                                         JObj [("label", JStr "grass")]])
                  | _ => GatewayError
                  end |} in
  fst (analyzeImageWithAI env "uploads/dog.png")
  = {| altText := formatAltText "a dog";
       caption := formatCaption "a dog" "a dog"
                    (JsString.join ", " ["dog"; "grass"]) |}.
Proof.
  intro env.
  apply (analyze_with_analysis env "uploads/dog.png" [] 0 0 "a dog" "a dog"
           (FoundAt 0 (Labels ["dog"; "grass"]))).
  - reflexivity.
  - reflexivity.
  - split; [simpl; lia|]. split; [intros j Hj; lia | reflexivity].
  - split; [simpl; lia|]. split; [intros j Hj; lia | reflexivity].
  - split; [simpl; lia|]. split; [intros j Hj; lia | reflexivity].
  - reflexivity.
Defined.

(** X10.  When the analysis text is a string longer than the caption, the
    caption returned is that text without its boilerplate prefix, whatever
    the classification models answer; the classification loop still runs,
    with one to three calls after those of the caption and analysis loops,
    but its labels are not used. *)
Theorem analyze_long_analysis_hides_labels (env : Env) (imagePath : string)
  (imageBuffer : list byte) (k j : nat) (s d : string) :
  tokenConfigured (HUGGINGFACE_API_TOKEN env) = true ->
  readFileSync env imagePath = Normal imageBuffer ->
  firstUsable Caption (axiosPost env) (models Caption) 0 k (Text (JStr s)) ->
  firstUsable Analysis (axiosPost env) (models Analysis) (S k) j
    (Text (JStr d)) ->
  (String.length s < String.length d)%nat ->
  exists c,
    1 <= c <= 3 /\
    analyzeImageWithAI env imagePath
    = ({| altText := formatAltText s;
          caption := JsString.replacePrefix boilerplatePrefixes d |},
       (attempts Caption (S k) ++ attempts Analysis (S j)
          ++ attempts Classification c)%list).
Proof.
  intros Htoken Hfile Hc Ha Hlen.
  destruct (finds_total Classification (axiosPost env) (S k + S j))
    as [fl Hl].
  assert (Hlabels : exists labels, recordOf Classification fl = Labels labels).
  { destruct fl as [|m v]; [now exists []|].
    destruct Hl as (_ & _ & Hat).
    exact (normalize_classification_labels _ _ Hat). }
  destruct Hlabels as [labels Hlabels].
  exists (callsMade Classification fl). split.
  { pose proof (callsMade_le Classification _ _ _ Hl) as H. simpl in H.
    exact H. }
  rewrite (surjective_pairing (analyzeImageWithAI env imagePath)).
  f_equal.
  - rewrite (analyze_text_and_analysis env imagePath imageBuffer k j s d fl
               labels Htoken Hfile Hc Ha Hl Hlabels).
    f_equal. unfold formatCaption.
    apply Nat.ltb_lt in Hlen. rewrite Hlen.
    destruct d; [discriminate Hlen | reflexivity].
  - rewrite (analyze_unfold env imagePath imageBuffer Htoken Hfile).
    cbn [snd].
    destruct (runModels_scenario (axiosPost env) k (Text (JStr s))
                (FoundAt j (Text (JStr d))) fl Hc Ha Hl) as (Ht & _).
    exact Ht.
Qed.

Lemma analyze_long_analysis_hides_labels_witness :
  let env := {| HUGGINGFACE_API_TOKEN := Some "hf_token";
                readFileSync := fun _ => Normal [];
                axiosPost := fun n =>
                  match n with
                  | 0 => Response (JStr "a dog")
                  | 1 => Response (JStr "Caption: a dog runs on the grass")
                  | 2 => Response (JArr [JObj [("label", JStr "dog")]])
                  | _ => GatewayError
                  end |} in
  exists c,
    1 <= c <= 3 /\
    analyzeImageWithAI env "uploads/dog.png"
    = ({| altText := formatAltText "a dog";
          caption := JsString.replacePrefix boilerplatePrefixes
                       "Caption: a dog runs on the grass" |},
       (attempts Caption 1 ++ attempts Analysis 1
          ++ attempts Classification c)%list).
Proof.
  intro env.
  apply (analyze_long_analysis_hides_labels env "uploads/dog.png" [] 0 0).
  - reflexivity.
  - reflexivity.
  - split; [simpl; lia|]. split; [intros j Hj; lia | reflexivity].
  - split; [simpl; lia|]. split; [intros j Hj; lia | reflexivity].
  - simpl. lia.
Defined.

(** X11.  A caption that is found but is not a string (a number, an
    object, ...) gives the mock result, whatever the other models answer:
    [formatAltText] throws on it and the [catch] of line 427 takes over. *)
Theorem analyze_non_string_caption (env : Env) (imagePath : string)
  (k : nat) (v : json) :
  firstUsable Caption (axiosPost env) (models Caption) 0 k (Text v) ->
  Js.typeofString v = false ->
  fst (analyzeImageWithAI env imagePath) = getMockAnalysisResults.
Proof.
  intros Hc Hv. unfold analyzeImageWithAI.
  destruct (tokenConfigured (HUGGINGFACE_API_TOKEN env)); cbn [negb fst];
    [|reflexivity].
  destruct (readFileSync env imagePath) as [imageBuffer|]; cbn [fst];
    [|reflexivity].
  destruct (finds_total Analysis (axiosPost env) (S k)) as [fa Ha].
  destruct (finds_total Classification (axiosPost env)
              (S k + callsMade Analysis fa)) as [fl Hl].
  destruct (runModels_scenario (axiosPost env) k (Text v) fa fl Hc Ha Hl)
    as (_ & Hs1 & Hr1 & _).
  cbn [recorded] in Hr1. injection Hr1 as Hr1.
  unfold buildResult. rewrite Hs1, Hr1. cbn [negb].
  destruct v; try discriminate Hv; reflexivity.
Qed.

Lemma analyze_non_string_caption_witness :
  let env := {| HUGGINGFACE_API_TOKEN := Some "hf_token";
                readFileSync := fun _ => Normal [];
                axiosPost := fun n =>
                  match n with
                  | 0 => Response (JObj [("generated_text",
                                          JArr [JStr "a dog"])])
                  | _ => Response (JStr "a dog")
                  end |} in
  fst (analyzeImageWithAI env "uploads/dog.png") = getMockAnalysisResults.
Proof.
  intro env.
  apply (analyze_non_string_caption env "uploads/dog.png" 0
           (JArr [JStr "a dog"])).
  - split; [simpl; lia|]. split; [intros j Hj; lia | reflexivity].
  - reflexivity.
Defined.

(** ** The upload path *)

Lemma fsUnlinkSync_existing (disk : FileSystem) (p : string) :
  fsExistsSync disk p = true ->
  exists disk',
    fsUnlinkSync disk p = Normal disk' /\
    disk' p = None /\
    forall q, q <> p -> disk' q = disk q.
Proof.
  intro H. unfold fsUnlinkSync. rewrite H.
  eexists. split; [reflexivity|]. split.
  - now rewrite String.eqb_refl.
  - intros q Hq. apply String.eqb_neq in Hq. now rewrite Hq.
Qed.

Lemma processUploadedImage_existing (token : option string)
  (net : network) (disk : FileSystem) (f : UploadedFile) :
  fsExistsSync disk (filePath f) = true ->
  let env := {| HUGGINGFACE_API_TOKEN := token;
                readFileSync := fsReadFileSync disk;
                axiosPost := net |} in
  exists disk',
    processUploadedImage token net disk (Some f)
    = (Done (fst (analyzeImageWithAI env (filePath f))), disk',
       snd (analyzeImageWithAI env (filePath f))) /\
    fsExistsSync disk' (filePath f) = false /\
    forall q, q <> filePath f -> disk' q = disk q.
Proof.
  intros Hexists env.
  destruct (fsUnlinkSync_existing disk (filePath f) Hexists)
    as (disk' & Hunlink & Hgone & Hothers).
  exists disk'. unfold processUploadedImage. fold env.
  destruct (analyzeImageWithAI env (filePath f)) as [result calls].
  rewrite Hunlink. cbn [fst snd].
  split; [reflexivity|]. split; [|exact Hothers].
  unfold fsExistsSync. now rewrite Hgone.
Qed.

(** X12.  For an upload that is on the disk, [processUploadedImage] returns
    what [analyzeImageWithAI] returned, whatever the providers did, and
    deletes the upload and no other file. *)
Theorem processUploadedImage_cleans_up (token : option string)
  (net : network) (disk : FileSystem) (f : UploadedFile) :
  fsExistsSync disk (filePath f) = true ->
  let env := {| HUGGINGFACE_API_TOKEN := token;
                readFileSync := fsReadFileSync disk;
                axiosPost := net |} in
  exists disk',
    processUploadedImage token net disk (Some f)
    = (Done (fst (analyzeImageWithAI env (filePath f))), disk',
       snd (analyzeImageWithAI env (filePath f))) /\
    fsExistsSync disk' (filePath f) = false /\
    forall q, q <> filePath f -> disk' q = disk q.
Proof. exact (processUploadedImage_existing token net disk f). Qed.

Lemma processUploadedImage_cleans_up_witness :
  let disk := fun p : string =>
                if (p =? "uploads/1.png")%string then Some [x00]
                else if (p =? "uploads/2.png")%string then Some [x01]
                else None in
  let f := {| filePath := "uploads/1.png"; originalname := "dog.png" |} in
  let env := {| HUGGINGFACE_API_TOKEN := None;
                readFileSync := fsReadFileSync disk;
                axiosPost := fun _ => GatewayError |} in
  exists disk',
    processUploadedImage None (fun _ => GatewayError) disk (Some f)
    = (Done (fst (analyzeImageWithAI env (filePath f))), disk',
       snd (analyzeImageWithAI env (filePath f))) /\
    fsExistsSync disk' (filePath f) = false /\
    forall q, q <> filePath f -> disk' q = disk q.
Proof.
  intros disk f.
  apply (processUploadedImage_cleans_up None (fun _ => GatewayError) disk f).
  reflexivity.
Defined.

Lemma processUploadedImage_missing (token : option string)
  (net : network) (disk : FileSystem) (f : UploadedFile) :
  fsExistsSync disk (filePath f) = false ->
  processUploadedImage token net disk (Some f)
  = (Failed (Raised IOError), disk, []).
Proof.
  intro Hmissing. unfold processUploadedImage.
  assert (Hread : fsReadFileSync disk (filePath f) = Throw IOError).
  { unfold fsReadFileSync, fsExistsSync in *.
    now destruct (disk (filePath f)). }
  unfold analyzeImageWithAI. cbn [HUGGINGFACE_API_TOKEN readFileSync].
  rewrite Hread. unfold fsUnlinkSync. rewrite Hmissing.
  now destruct (negb (tokenConfigured token)).
Qed.

(** X13.  For an upload that is not on the disk, [processUploadedImage]
    throws the error of [fs.unlinkSync] after [analyzeImageWithAI] has
    fallen back to the mock result without calling a provider; the disk is
    left as it was. *)
Theorem processUploadedImage_missing_upload (token : option string)
  (net : network) (disk : FileSystem) (f : UploadedFile) :
  fsExistsSync disk (filePath f) = false ->
  processUploadedImage token net disk (Some f)
  = (Failed (Raised IOError), disk, []).
Proof. exact (processUploadedImage_missing token net disk f). Qed.

Lemma processUploadedImage_missing_upload_witness :
  processUploadedImage (Some "hf_token") (fun _ => Response (JStr "a dog"))
    (fun _ => None)
    (Some {| filePath := "uploads/1.png"; originalname := "dog.png" |})
  = (Failed (Raised IOError), fun _ => None, []).
Proof.
  apply (processUploadedImage_missing_upload (Some "hf_token")
           (fun _ => Response (JStr "a dog")) (fun _ => None)
           {| filePath := "uploads/1.png"; originalname := "dog.png" |}).
  reflexivity.
Defined.


(** X15.  The upload filter compares extensions case-sensitively: a name
    with one of the four extensions is accepted, the same name with the
    extension in capitals is refused. *)
Theorem fileFilter_case_sensitive (name ext : string) :
  In ext allowedExtensions ->
  fileFilter (name ++ ext) = true /\
  fileFilter (name ++ JsString.toUpperCase ext) = false.
Proof.
  intro Hext. simpl in Hext.
  unfold fileFilter, allowedExtensions, JsString.endsWith.
  destruct Hext as [<-|[<-|[<-|[<-|[]]]]];
    (split;
     [ cbn [existsb]; rewrite !rev_append;
       repeat match goal with
              | |- context [String.prefix (JsString.rev ?e)
                              (JsString.rev ?e ++ ?r)] =>
                  rewrite (prefix_append (JsString.rev e) r)
              end;
       now rewrite ?orb_true_r
     | cbn [existsb JsString.toUpperCase]; rewrite !rev_append;
       reflexivity ]).
Qed.

Lemma fileFilter_case_sensitive_witness :
  fileFilter ("IMG_0042" ++ ".jpg") = true /\
  fileFilter ("IMG_0042" ++ JsString.toUpperCase ".jpg") = false.
Proof.
  apply (fileFilter_case_sensitive "IMG_0042" ".jpg"). simpl. tauto.
Defined.

(** ** The alt text as the front end shows it *)

Lemma spanLength_append (p : ascii -> bool) (a b : string) :
  forallChars p a = true ->
  spanLength p (a ++ b) = String.length a + spanLength p b.
Proof.
  induction a as [|c a IH]; simpl; [reflexivity|].
  intro H. apply andb_true_iff in H as [-> H]. now rewrite IH.
Qed.

Lemma drop_append (a b : string) : drop (String.length a) (a ++ b) = b.
Proof. induction a as [|c a IH]; simpl; [reflexivity | exact IH]. Qed.

Lemma substring_append_middle (a w b : string) :
  String.substring (String.length a) (String.length w) (a ++ w ++ b) = w.
Proof.
  induction a as [|c a IH]; simpl; [|exact IH].
  apply substring_append_left.
Qed.

(** Without a capital, nothing is replaced. *)
Lemma replaceSeparated_no_capital (s : string) :
  forallChars notUpper s = true ->
  forall prevWord, replaceSeparated 0 prevWord s = s.
Proof.
  induction s as [|c s IH]; simpl; [reflexivity|].
  intros H prevWord. apply andb_true_iff in H as [Hc H].
  unfold notUpper in Hc. apply negb_true_iff in Hc. rewrite Hc. simpl.
  destruct prevWord; now rewrite IH.
Qed.

Lemma replaceSeparated_skip (a s : string) :
  forallChars notUpper s = true ->
  forall prevWord,
  replaceSeparated (String.length a) prevWord (a ++ s) = s.
Proof.
  intro Hs. induction a as [|c a IH]; intro prevWord.
  - now apply replaceSeparated_no_capital.
  - simpl. apply IH.
Qed.

Lemma lower_not_white (c : ascii) :
  isLower c = true -> JsString.isWhiteSpace c = false.
Proof.
  unfold isLower, JsString.isWhiteSpace. cbv zeta.
  intro H. apply andb_true_iff in H as [H1 H2].
  apply Nat.leb_le in H1.
  repeat (apply orb_false_iff; split); apply Nat.eqb_neq; lia.
Qed.

Lemma outside_word_not_lower (s : string) :
  startsOutsideWord s = true -> spanLength isLower s = 0.
Proof.
  destruct s as [|x s]; simpl; [reflexivity|].
  unfold isWordChar. intro H. apply negb_true_iff in H.
  repeat (apply orb_false_iff in H as [H ?]).
  now replace (isLower x) with false.
Qed.

Lemma upperChar_isUpper (c : ascii) :
  isLower c = true -> isUpper (JsString.upperChar c) = true.
Proof.
  unfold isLower, isUpper, JsString.upperChar. cbv zeta.
  intro H. rewrite H. apply andb_true_iff in H as [H1 H2].
  apply Nat.leb_le in H1. apply Nat.leb_le in H2.
  rewrite nat_ascii_embedding by lia.
  apply andb_true_iff. split; apply Nat.leb_le; lia.
Qed.

(** A capital, white space and a lower-case word at the very start: the
    white space goes. *)
Lemma fixSeparatedFirstLetters_first_word (capital : ascii)
  (spaces w rest : string) :
  isUpper capital = true ->
  spaces <> "" -> forallChars JsString.isWhiteSpace spaces = true ->
  w <> "" -> forallChars isLower w = true ->
  startsOutsideWord rest = true ->
  forallChars notUpper rest = true ->
  fixSeparatedFirstLetters (String capital (spaces ++ w ++ rest))
  = String capital (w ++ rest).
Proof.
  intros Hcap Hsp Hspaces Hw Hlower Hrest Hnone.
  unfold fixSeparatedFirstLetters. cbn [replaceSeparated].
  assert (Hspan1 : spanLength JsString.isWhiteSpace (spaces ++ w ++ rest)
                   = String.length spaces).
  { rewrite spanLength_append by exact Hspaces.
    destruct w as [|x w]; [now elim Hw|]. simpl in *.
    apply andb_true_iff in Hlower as [Hx _].
    rewrite (lower_not_white x Hx). lia. }
  assert (Hspan2 : spanLength isLower (w ++ rest) = String.length w).
  { rewrite spanLength_append by exact Hlower.
    rewrite (outside_word_not_lower rest Hrest). lia. }
  unfold matchSeparated.
  rewrite Hspan1, drop_append, Hspan2, drop_append, Hcap.
  assert (H1 : (0 <? String.length spaces)%nat = true).
  { apply Nat.ltb_lt. destruct spaces; [now elim Hsp | simpl; lia]. }
  assert (H2 : (0 <? String.length w)%nat = true).
  { apply Nat.ltb_lt. destruct w; [now elim Hw | simpl; lia]. }
  rewrite H1, H2. cbn [andb].
  replace (match rest with
           | EmptyString => true
           | String x _ => negb (isWordChar x)
           end) with true by (symmetry; exact Hrest).
  rewrite substring_append_middle.
  rewrite <- length_append, <- (append_assoc spaces w rest).
  rewrite (replaceSeparated_skip (spaces ++ w) rest Hnone).
  reflexivity.
Qed.

(** The alt text of a short caption that needs no trimming and has no
    trailing period. *)
Lemma formatAltText_short (c : ascii) (tail : string) :
  JsString.trim (String c tail) = String c tail ->
  JsString.endsWith (String c tail) "." = false ->
  String.length (String c tail) <= 124 ->
  formatAltText (String c tail)
  = String (JsString.upperChar c) (String " " tail).
Proof.
  intros Htrim Hends Hlen. unfold formatAltText.
  rewrite Htrim, Hends, capitalised_cons.
  replace (125 <? _)%nat with false; [reflexivity|].
  symmetry. apply Nat.ltb_ge. simpl in *. lia.
Qed.

(** X17.  For a caption of at most 124 characters without surrounding white
    space, trailing period or capital letter, whose first word has two or
    more lower-case letters, the front end shows the caption with its first
    letter in upper case: [fixSeparatedFirstLetters] removes the space that
    [formatAltText] put after the first letter. *)
Theorem shown_altText_capitalised (c : ascii) (w rest : string) :
  let text := String c (w ++ rest) in
  isLower c = true ->
  w <> "" -> forallChars isLower w = true ->
  startsOutsideWord rest = true ->
  forallChars notUpper rest = true ->
  JsString.trim text = text ->
  JsString.endsWith text "." = false ->
  String.length text <= 124 ->
  fixSeparatedFirstLetters (formatAltText text) = capitalizeFirstLetter text.
Proof.
  intros text Hc Hw Hlower Hrest Hnone Htrim Hends Hlen. unfold text in *.
  rewrite (formatAltText_short c (w ++ rest) Htrim Hends Hlen).
  change (String " " (w ++ rest)) with (" " ++ w ++ rest).
  rewrite fixSeparatedFirstLetters_first_word;
    try assumption; try reflexivity; try discriminate.
  - unfold capitalizeFirstLetter, JsString.charAt, JsString.sliceFrom.
    simpl. now rewrite Nat.sub_0_r, substring_all.
  - now apply upperChar_isUpper.
Qed.

Lemma shown_altText_capitalised_witness :
  fixSeparatedFirstLetters (formatAltText "the dog runs on grass")
  = capitalizeFirstLetter "the dog runs on grass".
Proof.
  apply (shown_altText_capitalised "t" "he" " dog runs on grass");
    try reflexivity; try discriminate.
  simpl. lia.
Defined.

(** X18.  When such a caption starts with a one-letter word, as in
    ["a dog"], the front end shows that letter glued to the next word:
    [fixSeparatedFirstLetters] takes the space of the caption together
    with the one [formatAltText] inserted. *)
Theorem shown_altText_glues_one_letter_word (c : ascii) (w rest : string) :
  let text := String c (" " ++ w ++ rest) in
  isLower c = true ->
  w <> "" -> forallChars isLower w = true ->
  startsOutsideWord rest = true ->
  forallChars notUpper rest = true ->
  JsString.trim text = text ->
  JsString.endsWith text "." = false ->
  String.length text <= 124 ->
  fixSeparatedFirstLetters (formatAltText text)
  = String (JsString.upperChar c) (w ++ rest).
Proof.
  intros text Hc Hw Hlower Hrest Hnone Htrim Hends Hlen. unfold text in *.
  rewrite (formatAltText_short c (" " ++ w ++ rest) Htrim Hends Hlen).
  change (String " " (" " ++ w ++ rest)) with ("  " ++ w ++ rest).
  apply fixSeparatedFirstLetters_first_word;
    try assumption; try reflexivity; try discriminate.
  now apply upperChar_isUpper.
Qed.

Lemma shown_altText_glues_one_letter_word_witness :
  fixSeparatedFirstLetters (formatAltText "a dog running on grass")
  = "Adog running on grass".
Proof.
  apply (shown_altText_glues_one_letter_word "a" "dog" " running on grass");
    try reflexivity; try discriminate.
  simpl. lia.
Defined.

(** ** Long texts and exhausted lists *)

Lemma length_dropLast (s : string) :
  String.length (JsString.dropLast s) = String.length s - 1.
Proof. unfold JsString.dropLast. apply length_substring. lia. Qed.

(** X19.  A text that still has 127 characters or more after trimming is
    always cut: the alt text has exactly 125 characters and ends in the
    ellipsis marker. *)
Theorem formatAltText_cuts_long_text (text : string) :
  127 <= String.length (JsString.trim text) ->
  String.length (formatAltText text) = 125 /\
  JsString.endsWith (formatAltText text) "..." = true.
Proof.
  intro Hlen. unfold formatAltText.
  set (a := if JsString.endsWith (JsString.trim text) "."
            then JsString.dropLast (JsString.trim text)
            else JsString.trim text).
  assert (Ha : 126 <= String.length a).
  { unfold a. destruct (JsString.endsWith _ ".");
      [rewrite length_dropLast|]; lia. }
  destruct a as [|c r]; [simpl in Ha; lia|].
  rewrite capitalised_cons.
  replace (125 <? _)%nat with true
    by (symmetry; apply Nat.ltb_lt; simpl in *; lia).
  split.
  - rewrite length_append. unfold JsString.substringTo.
    rewrite length_substring; [reflexivity | simpl in *; lia].
  - apply endsWith_append.
Qed.

Lemma formatAltText_cuts_long_text_witness :
  String.length (formatAltText (replicate 127 "x")) = 125 /\
  JsString.endsWith (formatAltText (replicate 127 "x")) "..." = true.
Proof.
  apply (formatAltText_cuts_long_text (replicate 127 "x")).
  vm_compute. lia.
Defined.

(** X20.  When no provider of a list has a usable result, the loop calls
    every provider of the list once, in order, and ends with the success
    flag unset. *)
Theorem tryModels_exhausts_list (cap : capability) (net : network)
  (providers : list string) (st : State) :
  succeeded cap (results st) = false ->
  allUnusable cap net providers (List.length (trace st)) ->
  trace (tryModels cap net providers st)
  = (trace st ++ map (mkAttempt cap) providers)%list /\
  succeeded cap (results (tryModels cap net providers st)) = false.
Proof. exact (tryModels_exhausted cap net providers st). Qed.

Lemma tryModels_exhausts_list_witness :
  let net := fun n : nat =>
    match n with
    | 0 => GatewayError
    | 1 => Response (JArr [JNull])
    | _ => Response (JArr [JObj [("score", JNum 1)]])
    end in
  let st := {| results := initialResults; trace := [] |} in
  trace (tryModels Classification net (models Classification) st)
  = ([] ++ map (mkAttempt Classification) (models Classification))%list /\
  succeeded Classification
    (results (tryModels Classification net (models Classification) st))
  = false.
Proof.
  intros net st.
  apply (tryModels_exhausts_list Classification net (models Classification)
           st).
  - reflexivity.
  - intros [|[|[|j]]] Hj; reflexivity.
Defined.
